(** * Yolo/utils/model.py: model download, safe extraction and UFF conversion

    A shallow embedding of [src/Yolo/utils/model.py].  Python [str] values
    are Rocq strings (sequences of 8-bit characters, compared by character
    code as Python compares code points), [bytes] values are lists of
    bytes, dictionaries are finite maps, and the functions that touch the
    disk, the network or standard output are written in a state-and-error
    monad over an explicit [World]. *)

From Stdlib Require Import Strings.Ascii Strings.String Strings.Byte ZArith QArith.
From stdpp Require Import gmap strings list fin_maps.

Local Open Scope string_scope.
Local Open Scope list_scope.
Local Open Scope stdpp_scope.

(** ** Python built-ins on strings used by the file *)

Module Py.

(** [s.startswith(t)] *)
Definition startswith (s t : string) : bool := String.prefix t s.

(** [s.endswith("/")] *)
Fixpoint endswith_sep (s : string) : bool :=
  match s with
  | EmptyString => false
  | String c EmptyString => Ascii.eqb c "/"
  | String _ r => endswith_sep r
  end.

(** [s.split("/")]: the pieces between separators, empty pieces kept. *)
Fixpoint split_sep (s : string) : list string :=
  match s with
  | EmptyString => [EmptyString]
  | String c r =>
      if Ascii.eqb c "/" then EmptyString :: split_sep r
      else match split_sep r with
           | h :: t => String c h :: t
           | [] => [String c EmptyString]
           end
  end.

(** ["/".join(comps)] *)
Fixpoint join_sep (comps : list string) : string :=
  match comps with
  | [] => EmptyString
  | [c] => c
  | c :: r => c +:+ "/" +:+ join_sep r
  end.

(** ["/" * k] *)
Fixpoint sep_times (k : nat) : string :=
  match k with
  | O => EmptyString
  | S k' => String "/" (sep_times k')
  end.

(** [s.rstrip("/")] *)
Fixpoint rstrip_sep (s : string) : string :=
  match s with
  | EmptyString => EmptyString
  | String c r =>
      let r' := rstrip_sep r in
      if Ascii.eqb c "/" && String.eqb r' "" then EmptyString
      else String c r'
  end.

(** [(s[:i], s[i:])] for [i = s.rfind("/") + 1]: the string up to and
    with its last separator, and what follows it. *)
Fixpoint rpartition_sep (s : string) : string * string :=
  match s with
  | EmptyString => (EmptyString, EmptyString)
  | String c r =>
      let (head, tail) := rpartition_sep r in
      if negb (String.eqb head "") then (String c head, tail)
      else if Ascii.eqb c "/" then ("/", tail)
      else ("", String c tail)
  end.

(** [min(m)] and [max(m)] on a non-empty list of strings: the first least
    and the first greatest element in the order of [str]. *)
Definition min_str (x : string) (rest : list string) : string :=
  fold_left (fun acc y => if String.ltb y acc then y else acc) rest x.

Definition max_str (x : string) (rest : list string) : string :=
  fold_left (fun acc y => if String.ltb acc y then y else acc) rest x.

End Py.

(** ** [os.path] on POSIX ([posixpath]) *)

Module posixpath.

(** [isabs(s)]: [s.startswith("/")] *)
Definition isabs (s : string) : bool := Py.startswith s "/".

(** [join(a, b)]: an absolute [b] discards [a]; otherwise [b] is appended,
    after a separator unless [a] is empty or already ends with one. *)
Definition join (a b : string) : string :=
  if Py.startswith b "/" then b
  else if String.eqb a "" || Py.endswith_sep a then a +:+ b
  else a +:+ "/" +:+ b.

(** The number of leading slashes [normpath] keeps: POSIX gives exactly
    two leading slashes a meaning of their own, three or more are one. *)
Definition initial_slashes (path : string) : nat :=
  if Py.startswith path "/" then
    if Py.startswith path "//" && negb (Py.startswith path "///") then 2
    else 1
  else 0.

(** One turn of the loop of [normpath] over the components. *)
Definition norm_step (slashes : nat) (new_comps : list string)
    (comp : string) : list string :=
  if String.eqb comp "" || String.eqb comp "." then new_comps
  else if negb (String.eqb comp "..")
          || (Nat.eqb slashes 0 && bool_decide (new_comps = []))
          || (bool_decide (new_comps ≠ [])
              && bool_decide (last new_comps = Some "..")) then
    new_comps ++ [comp]
  else if bool_decide (new_comps ≠ []) then removelast new_comps
  else new_comps.

(** The components [normpath] is left with after its loop. *)
Definition norm_comps (path : string) : list string :=
  fold_left (norm_step (initial_slashes path)) (Py.split_sep path) [].

(** The end of [normpath]: the components joined again behind the
    leading slashes, and ["."] when nothing is left. *)
Definition render (slashes : nat) (comps : list string) : string :=
  let path := Py.sep_times slashes +:+ Py.join_sep comps in
  if String.eqb path "" then "." else path.

Definition normpath (path : string) : string :=
  if String.eqb path "" then "."
  else render (initial_slashes path) (norm_comps path).

(** [abspath(path)], with the current directory [os.getcwd()] given. *)
Definition abspath (cwd path : string) : string :=
  normpath (if isabs path then path else join cwd path).

(** [split(p)]: the head loses its trailing slashes unless it is made of
    slashes only. *)
Definition split (p : string) : string * string :=
  let (head, tail) := Py.rpartition_sep p in
  (if negb (String.eqb head "")
      && negb (String.eqb head (Py.sep_times (String.length head)))
   then Py.rstrip_sep head else head,
   tail).

(** [dirname(p)] *)
Definition dirname (p : string) : string := (split p).1.

(** The loop of [commonprefix] over [s1 = min(m)], comparing with
    [s2 = max(m)]: [None] stands for the [IndexError] of [s2[i]] past the
    end of [s2]. *)
Fixpoint prefix_scan (s1 s2 : string) : option string :=
  match s1 with
  | EmptyString => Some EmptyString
  | String c r1 =>
      match s2 with
      | EmptyString => None
      | String c2 r2 =>
          if Ascii.eqb c c2 then String c <$> prefix_scan r1 r2
          else Some EmptyString
      end
  end.

(** [commonprefix(m)]: the longest common leading string, character by
    character.  The scan stays in range ([commonprefix_in_range]). *)
Definition commonprefix (m : list string) : string :=
  match m with
  | [] => ""
  | x :: rest =>
      default "" (prefix_scan (Py.min_str x rest) (Py.max_str x rest))
  end.

End posixpath.

(** ** Python values of the program *)

Abbreviation bytes := (list byte).

(** [int(s)] for a [str]: whitespace at both ends is dropped, a sign may
    lead, and the decimal digits may be grouped by single underscores.
    [None] is the [ValueError] of [int].

    The characters of the string are code points below 256.  Of these,
    [int] drops the ASCII whitespace (tab to carriage return, and the
    space) and the two other characters that [str.isspace] accepts, NEL
    (133) and the no-break space (160); the separators 28 to 31 are
    whitespace for [str.strip] but not for [int], which refuses them.

    An interpreter that limits the conversion ([sys.get_int_max_str_digits],
    4300 unless configured) refuses a number of more digits than the limit;
    a limit of zero is no limit, and no limit applies up to 640 digits. *)
Module PyInt.

Definition is_space (c : ascii) : bool :=
  let n := nat_of_ascii c in
  (Nat.leb 9 n && Nat.leb n 13) || Nat.eqb n 32
  || Nat.eqb n 133 || Nat.eqb n 160.

Fixpoint lstrip (s : string) : string :=
  match s with
  | String c r => if is_space c then lstrip r else s
  | EmptyString => EmptyString
  end.

Definition strip (s : string) : string :=
  String.rev (lstrip (String.rev (lstrip s))).

Fixpoint digits (s : string) (acc : Z) (after_digit : bool) : option Z :=
  match s with
  | EmptyString => if after_digit then Some acc else None
  | String c r =>
      match Ascii.is_nat c with
      | Some d => digits r (10 * acc + Z.of_nat d)%Z true
      | None =>
          if Ascii.eqb c "_" && after_digit then digits r acc false
          else None
      end
  end.

(** The digits of a literal, its underscores not counted. *)
Fixpoint count_digits (s : string) : nat :=
  match s with
  | EmptyString => 0
  | String c r =>
      match Ascii.is_nat c with
      | Some _ => S (count_digits r)
      | None => count_digits r
      end
  end.

Definition over_limit (max_str_digits : nat) (literal : string) : bool :=
  Nat.ltb 640 (count_digits literal)
  && Nat.ltb 0 max_str_digits
  && Nat.ltb max_str_digits (count_digits literal).

Definition unsigned (max_str_digits : nat) (literal : string) : option Z :=
  match digits literal 0%Z false with
  | Some n => if over_limit max_str_digits literal then None else Some n
  | None => None
  end.

Definition int (max_str_digits : nat) (s : string) : option Z :=
  match strip s with
  | String "-" r => Z.opp <$> unsigned max_str_digits r
  | String "+" r => unsigned max_str_digits r
  | r => unsigned max_str_digits r
  end.

End PyInt.

(** Exceptions the program raises or lets through.  The two the file
    raises itself carry their message; those that come out of the
    interpreter and the libraries are told apart by their class only.  An
    [OSError] is one of the four subclasses the calls of the file can meet
    in a file system of directories and regular files: [ENOENT], [ENOTDIR],
    [EISDIR] and [EEXIST].  [LibraryError] stands for whatever exception
    leaves tensorflow, graphsurgeon or uff. *)
Inductive exn : Type :=
  | NotImplementedError (msg : string)
  | Exception (msg : string)
  | ValueError
  | ZeroDivisionError
  | FileNotFoundError
  | NotADirectoryError
  | IsADirectoryError
  | FileExistsError
  | RequestException
  | ReadError
  | LibraryError.

(** What [requests.get(url, stream=True)] answers with: the
    [content-length] header when the server sent one, the whole body
    ([response.content]) and the chunks [response.iter_content] yields for
    a chunk size. *)
Record Response : Type := mkResponse {
  content_length : option string;
  content : bytes;
  iter_content : N -> list bytes
}.

(** A member of a tar archive: [member.name] and what it holds. *)
Record TarInfo : Type := mkTarInfo {
  name : string;
  data : bytes
}.

(** An opened archive, as [tar.getmembers()] lists it. *)
Definition TarFile := list TarInfo.

(** Text sent to standard output.  The progress line is kept as the byte
    counter and the total that drive it; its rendering divides in floating
    point and is not modelled. *)
Inductive text : Type :=
  | Str (s : string)
  | ProgressBar (dl total_length : Z).

(** The input and output actions of the program, in the order they are
    attempted. *)
Inductive event : Type :=
  | Stdout (t : text)
  | StdoutFlush
  | Mkdir (path : string)
  | OpenWb (path : string)
  | FileWrite (path : string) (chunk : bytes)
  | HttpGet (url : string)
  | TarOpen (path : string)
  | Remove (path : string).

(** The part of the machine the program reads and changes: the regular
    files and the directories, each under its absolute path without [.],
    [..] or doubled slashes, and the actions performed so far.  The root
    [/] is always a directory.  Links, owners, permissions and the limits
    of the system (the length of a name, the room on the disk) are not
    part of it. *)
Record World : Type := mkWorld {
  files : gmap string bytes;
  dirs : gset string;
  trace : list event
}.

(** ** Metadata of the converted model *)

Module ModelData.
Definition INPUT_NAME : string := "Input".
Definition INPUT_SHAPE : Z * Z * Z := (3, 300, 300)%Z.
Definition OUTPUT_NAME : string := "NMS".
Definition get_input_channels : Z := INPUT_SHAPE.1.1.
Definition get_input_height : Z := INPUT_SHAPE.1.2.
Definition get_input_width : Z := INPUT_SHAPE.2.
End ModelData.

(** ** The graph library *)

Module gs.

(** Attribute values of a node: scalars and lists of numbers.  A float
    holds the value of its decimal literal. *)
Inductive attr_value : Type :=
  | AInt (z : Z)
  | AFloat (q : Q)
  | AIntList (l : list Z)
  | AFloatList (l : list Q).

(** Modelled from the spec: graphsurgeon's graph type is not part of the
    sources.  A node is identified by its name, the key under which the
    graph holds it; it has an operation type, attributes and the names of
    the nodes it reads from. *)
Record Node : Type := mkNode {
  op : string;
  attr : list (string * attr_value);
  input : list string
}.

Abbreviation DynamicGraph := (gmap string Node).

(** Modelled from the spec: [gs.create_plugin_node(name, op, **kwargs)]
    and [gs.create_node] give a named node with the given operation type
    and attributes, and no input yet. *)
Definition create_plugin_node (name op : string)
    (kwargs : list (string * attr_value)) : string * Node :=
  (name, mkNode op kwargs []).

Definition create_node (name op : string)
    (kwargs : list (string * attr_value)) : string * Node :=
  (name, mkNode op kwargs []).

(** Modelled from the spec: a name lies in a namespace when it is the
    namespace or continues it after a ["/"]; the namespace is a qualified
    prefix, so ["concat_1"] is not in ["concat"]. *)
Definition in_namespace (namespace node_name : string) : bool :=
  String.eqb node_name namespace
  || String.prefix (namespace +:+ "/") node_name.

(** Modelled from the spec: the name a reference has once the namespace
    is collapsed, and a node with its references renamed. *)
Definition rename (namespace plugin_name node_name : string) : string :=
  if in_namespace namespace node_name then plugin_name else node_name.

Definition rewire (namespace plugin_name : string) (nd : Node) : Node :=
  mkNode (op nd) (attr nd) (rename namespace plugin_name <$> input nd).

(** Modelled from the spec: graphsurgeon's [collapse_namespaces] is not
    part of the sources.  One entry of the mapping: every node whose name
    is or starts with the namespace is collapsed into the replacement
    node, named as the mapping value; every node outside that referenced
    a collapsed node now references the replacement; an entry that
    matches no node changes nothing.  The replacement reads what the
    collapsed nodes read from outside, after what a node already standing
    under its name reads. *)
Definition collapse_namespace (g : DynamicGraph)
    (entry : string * (string * Node)) : DynamicGraph :=
  let namespace := entry.1 in
  let plugin_name := entry.2.1 in
  let plugin := entry.2.2 in
  let inside :=
    filter (fun kv : string * Node => in_namespace namespace kv.1 = true) g in
  if decide (inside = ∅) then g
  else
    let outside :=
      rewire namespace plugin_name <$>
      filter (fun kv : string * Node => in_namespace namespace kv.1 = false) g in
    let kept := from_option input [] (outside !! plugin_name) in
    let gathered :=
      map_to_list inside ≫=
        (fun kv => filter (fun i => in_namespace namespace i = false)
                          (input kv.2)) in
    <[plugin_name := mkNode (op plugin) (attr plugin) (kept ++ gathered)]>
      outside.

(** Modelled from the spec: the entries of the mapping are collapsed one
    after the other, in the order of the dictionary. *)
Definition collapse_namespaces (g : DynamicGraph)
    (namespace_map : list (string * (string * Node))) : DynamicGraph :=
  fold_left collapse_namespace namespace_map g.

(** A node is consumed when some node of the graph reads from it. *)
Definition consumed (g : DynamicGraph) (node_name : string) : Prop :=
  map_Exists (fun _ nd => node_name ∈ input nd) g.

(** Modelled from the spec: the outputs of the graph are its terminal
    nodes, those no node reads from. *)
Definition graph_outputs (g : DynamicGraph) : gset string :=
  dom (filter (fun kv : string * Node => ¬ consumed g kv.1) g).

(** Modelled from the spec: one round of the cascade marks the exclusive
    dependencies of the marked nodes, the nodes that are read from and
    whose every reader is marked. *)
Definition exclusive_step (g : DynamicGraph) (marked : gset string)
    : gset string :=
  marked ∪
  dom (filter (fun kv : string * Node =>
                 consumed g kv.1 ∧
                 map_Forall (fun k nd => kv.1 ∈ input nd → k ∈ marked) g) g).

Fixpoint exclusive_closure (fuel : nat) (g : DynamicGraph)
    (marked : gset string) : gset string :=
  match fuel with
  | O => marked
  | S fuel' => exclusive_closure fuel' g (exclusive_step g marked)
  end.

(** Modelled from the spec: [remove] takes the given nodes out of the
    graph and, only when [remove_exclusive_dependencies] is set, their
    exclusive dependencies with them.  The other nodes stay as they are. *)
Definition remove (g : DynamicGraph) (nodes : gset string)
    (remove_exclusive_dependencies : bool) : DynamicGraph :=
  let doomed :=
    if remove_exclusive_dependencies
    then exclusive_closure (size g) g nodes
    else nodes in
  filter (fun kv : string * Node => kv.1 ∉ doomed) g.

End gs.

(** ** [ssd_unsupported_nodes_to_plugin_nodes] *)

Definition Input : string * gs.Node :=
  gs.create_plugin_node "Input" "Placeholder"
    [("shape", gs.AIntList [1; ModelData.get_input_channels;
                            ModelData.get_input_height;
                            ModelData.get_input_width]%Z)].

Definition PriorBox : string * gs.Node :=
  gs.create_plugin_node "GridAnchor" "GridAnchor_TRT"
    [("minSize", gs.AFloat (2 # 10));
     ("maxSize", gs.AFloat (95 # 100));
     ("aspectRatios", gs.AFloatList [1 # 1; 2 # 1; 5 # 10; 3 # 1; 33 # 100]);
     ("variance", gs.AFloatList [1 # 10; 1 # 10; 2 # 10; 2 # 10]);
     ("featureMapShapes", gs.AIntList [19; 10; 5; 3; 2; 1]%Z);
     ("numLayers", gs.AInt 6)].

Definition NMS : string * gs.Node :=
  gs.create_plugin_node "NMS" "NMS_TRT"
    [("shareLocation", gs.AInt 1);
     ("varianceEncodedInTarget", gs.AInt 0);
     ("backgroundLabelId", gs.AInt 0);
     ("confidenceThreshold", gs.AFloat (1 # 100000000));
     ("nmsThreshold", gs.AFloat (6 # 10));
     ("topK", gs.AInt 100);
     ("keepTopK", gs.AInt 100);
     ("numClasses", gs.AInt 91);
     ("inputOrder", gs.AIntList [0; 2; 1]%Z);
     ("confSigmoid", gs.AInt 1);
     ("isNormalized", gs.AInt 1)].

Definition concat_priorbox : string * gs.Node :=
  gs.create_node "concat_priorbox" "ConcatV2" [("axis", gs.AInt 2)].

Definition concat_box_loc : string * gs.Node :=
  gs.create_plugin_node "concat_box_loc" "FlattenConcat_TRT"
    [("axis", gs.AInt 1); ("ignoreBatch", gs.AInt 0)].

Definition concat_box_conf : string * gs.Node :=
  gs.create_plugin_node "concat_box_conf" "FlattenConcat_TRT"
    [("axis", gs.AInt 1); ("ignoreBatch", gs.AInt 0)].

(** The mapping of namespace names to plugin nodes, in the order the
    dictionary is written. *)
Definition namespace_plugin_map : list (string * (string * gs.Node)) :=
  [("MultipleGridAnchorGenerator", PriorBox);
   ("Postprocessor", NMS);
   ("Preprocessor", Input);
   ("ToFloat", Input);
   ("image_tensor", Input);
   ("MultipleGridAnchorGenerator/Concatenate", concat_priorbox);
   ("MultipleGridAnchorGenerator/Identity", concat_priorbox);
   ("concat", concat_box_loc);
   ("concat_1", concat_box_conf)].

Definition ssd_unsupported_nodes_to_plugin_nodes (ssd_graph : gs.DynamicGraph)
    : gs.DynamicGraph :=
  let ssd_graph := gs.collapse_namespaces ssd_graph namespace_plugin_map in
  gs.remove ssd_graph (gs.graph_outputs ssd_graph) false.

(** ** The monad of the functions with effects *)

Definition M (A : Type) : Type := World -> (exn + A) * World.

#[global] Instance M_ret : MRet M := fun A x w => (inr x, w).

#[global] Instance M_bind : MBind M := fun A B f m w =>
  match m w with
  | (inl e, w') => (inl e, w')
  | (inr x, w') => f x w'
  end.

Definition raise {A : Type} (e : exn) : M A := fun w => (inl e, w).

(** [try: m except FileExistsError: pass] *)
Definition except_FileExistsError (m : M unit) : M unit := fun w =>
  match m w with
  | (inl FileExistsError, w') => (inr tt, w')
  | r => r
  end.

Definition emit (e : event) : M unit := fun w =>
  (inr tt, mkWorld (files w) (dirs w) (trace w ++ [e])).

Definition get_world : M World := fun w => (inr w, w).

Definition set_files (fs : gmap string bytes) : M unit := fun w =>
  (inr tt, mkWorld fs (dirs w) (trace w)).

Definition set_dirs (ds : gset string) : M unit := fun w =>
  (inr tt, mkWorld (files w) ds (trace w)).

(** What the program takes from outside itself: the current directory
    ([os.getcwd()]), the limit of the interpreter on the digits of a number
    read by [int], the path table [PATHS] of [utils.paths] (not part of the
    sources), the network, the decoder of the archive format, and the two
    calls into the graph libraries, [gs.DynamicGraph(model_path)] and
    [uff.from_tensorflow(graphdef, output_nodes, output_filename=...,
    text=...)].  Nothing is known of what these two read, write or print:
    each is left to answer, or to fail, and to change the world as it
    likes. *)
Record Env : Type := mkEnv {
  getcwd : string;
  int_max_str_digits : nat;
  get_models_dir_path : string;
  get_model_url : string -> string;
  get_model_pb_path : string -> string;
  get_model_uff_path : string -> string;
  network : string -> option Response;
  tar_decode : bytes -> option TarFile;
  graph_load : string -> World -> option gs.DynamicGraph * World;
  uff_convert :
    gs.DynamicGraph -> list string -> string -> bool -> World -> bool * World
}.

Definition newline : string := String (ascii_of_nat 10) EmptyString.

(** ** The file system *)

(** The path under which the world holds what lies at the given
    components below the root. *)
Definition key_of (comps : list string) : string :=
  String "/" (Py.join_sep comps).

Definition isdir_at (w : World) (comps : list string) : bool :=
  bool_decide (comps = []) || bool_decide (key_of comps ∈ dirs w).

Definition isfile_at (w : World) (comps : list string) : bool :=
  negb (isdir_at w comps) && bool_decide (is_Some (files w !! key_of comps)).

(** One component of a path, looked up by the system from the place
    reached so far.  An empty component (a doubled or trailing slash) is
    passed over.  Any other is looked up in the place reached, which must
    be a directory: [.] stays there, [..] goes to the parent, the root
    being its own parent (a parent that is no directory is not found), and
    a name goes below. *)
Definition walk_step (w : World) (cur : exn + list string) (comp : string)
    : exn + list string :=
  match cur with
  | inl e => inl e
  | inr cur =>
      if String.eqb comp "" then inr cur
      else if isdir_at w cur then
        if String.eqb comp "." then inr cur
        else if String.eqb comp ".." then
          if isdir_at w (removelast cur) then inr (removelast cur)
          else inl FileNotFoundError
        else inr (cur ++ [comp])
      else if isfile_at w cur then inl NotADirectoryError
      else inl FileNotFoundError
  end.

(** A string with the character of code zero, which no call of the system
    takes as a path. *)
Fixpoint has_nul (s : string) : bool :=
  match s with
  | EmptyString => false
  | String c r => Ascii.eqb c zero || has_nul r
  end.

Section Program.

Context (E : Env).

(** The components of the current directory. *)
Definition cwd_comps : list string :=
  fold_left (posixpath.norm_step 1) (Py.split_sep (getcwd E)) [].

(** Where the components of [path] lead, from the root when the path is
    absolute and from the current directory otherwise. *)
Definition start_of (path : string) : list string :=
  if posixpath.isabs path then [] else cwd_comps.

(** The place a path leads to, as the system calls find it.  Every
    directory on the way must exist; what the last component names may or
    may not. *)
Definition locate (w : World) (path : string) : exn + list string :=
  if has_nul path then inl ValueError
  else if String.eqb path "" then inl FileNotFoundError
  else fold_left (walk_step w) (Py.split_sep path) (inr (start_of path)).

(** The file or directory a path names, wherever all the directories on
    the way exist. *)
Definition resolve (path : string) : string :=
  key_of (fold_left (posixpath.norm_step 1) (Py.split_sep path)
            (start_of path)).

(** *** Library calls with effects *)

(** [print(s)] *)
Definition print (s : string) : M unit :=
  emit (Stdout (Str (s +:+ newline))).

(** [sys.stdout.write(t)] and [sys.stdout.flush()] *)
Definition stdout_write (t : text) : M unit := emit (Stdout t).
Definition stdout_flush : M unit := emit StdoutFlush.

(** [os.path.exists(path)]: whether [os.stat(path)] succeeds, whatever
    makes it fail.  A regular file is not found under a path that ends
    with a slash. *)
Definition os_path_exists (path : string) : M bool := fun w =>
  (inr match locate w path with
       | inr loc =>
           isdir_at w loc
           || (isfile_at w loc && negb (Py.endswith_sep path))
       | inl _ => false
       end, w).

(** [os.mkdir(path)] *)
Definition os_mkdir (path : string) : M unit :=
  emit (Mkdir path);;
  w ← get_world;
  match locate w path with
  | inl e => raise e
  | inr loc =>
      if isdir_at w loc || isfile_at w loc then raise FileExistsError
      else set_dirs ({[key_of loc]} ∪ dirs w)
  end.

(** The body of [os.makedirs(name)], with [exist_ok] left [False]: the
    directories above are made first when they are missing. *)
Definition makedirs_body (makedirs : string -> M unit) (name : string)
    : M unit :=
  let (head, tail) := posixpath.split name in
  let (head, tail) :=
    if String.eqb tail "" then posixpath.split head else (head, tail) in
  if negb (String.eqb head "") && negb (String.eqb tail "") then
    present ← os_path_exists head;
    if negb present then
      except_FileExistsError (makedirs head);;
      if String.eqb tail "." then mret tt
      else os_mkdir name
    else os_mkdir name
  else os_mkdir name.

(** The recursion of [os.makedirs] is on a shorter name each time, so the
    length of the name bounds its depth ([os_makedirs_unfold]). *)
Fixpoint makedirs (depth : nat) (name : string) : M unit :=
  match depth with
  | O => os_mkdir name
  | S depth' => makedirs_body (makedirs depth') name
  end.

(** [os.makedirs(name)] *)
Definition os_makedirs (name : string) : M unit :=
  makedirs (String.length name) name.

(** [open(path, "wb")]: the file is created, or emptied when it exists.
    The handle is the path under which the world holds the file. *)
Definition open_wb (path : string) : M string :=
  emit (OpenWb path);;
  w ← get_world;
  match locate w path with
  | inl e => raise e
  | inr loc =>
      if Py.endswith_sep path || isdir_at w loc then raise IsADirectoryError
      else set_files (<[key_of loc := []]> (files w));; mret (key_of loc)
  end.

(** [f.write(chunk)]: the chunk goes behind what the file holds. *)
Definition file_write (f : string) (chunk : bytes) : M unit :=
  w ← get_world;
  emit (FileWrite f chunk);;
  set_files (<[f := default [] (files w !! f) ++ chunk]> (files w)).

(** [requests.get(url, stream=True)] *)
Definition requests_get (url : string) : M Response :=
  emit (HttpGet url);;
  match network E url with
  | Some response => mret response
  | None => raise RequestException
  end.

(** [tarfile.open(path, "r:gz")]: the file is opened for reading and its
    content decoded. *)
Definition tarfile_open (path : string) : M TarFile :=
  emit (TarOpen path);;
  w ← get_world;
  match locate w path with
  | inl e => raise e
  | inr loc =>
      if isdir_at w loc then raise IsADirectoryError
      else
        match files w !! key_of loc with
        | None => raise FileNotFoundError
        | Some archive =>
            if Py.endswith_sep path then raise NotADirectoryError
            else
              match tar_decode E archive with
              | Some tar => mret tar
              | None => raise ReadError
              end
        end
  end.

(** One member extracted under [path], as [tarfile] extracts a member
    that is a regular file when no extraction filter is set: the
    directories above the target are made when they are missing, then the
    target is opened for writing and the content of the member copied
    into it. *)
Definition extract_member (path : string) (member : TarInfo) : M unit :=
  let targetpath := Py.rstrip_sep (posixpath.join path (name member)) in
  let upperdirs := posixpath.dirname targetpath in
  (if negb (String.eqb upperdirs "") then
     present ← os_path_exists upperdirs;
     if negb present then os_makedirs upperdirs else mret tt
   else mret tt);;
  target ← open_wb targetpath;
  file_write target (data member).

Fixpoint extract_each (path : string) (members : list TarInfo) : M unit :=
  match members with
  | [] => mret tt
  | member :: rest => extract_member path member;; extract_each path rest
  end.

(** [tar.extractall(path, members, numeric_owner=...)]: every member of the
    archive when [members] is [None], the listed ones otherwise, until one
    cannot be extracted.  Owners are not part of the world, so
    [numeric_owner] changes nothing here. *)
Definition extractall (tar : TarFile) (path : string)
    (members : option (list TarInfo)) (numeric_owner : bool) : M unit :=
  extract_each path (default tar members).

(** [os.remove(path)] *)
Definition os_remove (path : string) : M unit :=
  emit (Remove path);;
  w ← get_world;
  match locate w path with
  | inl e => raise e
  | inr loc =>
      if isdir_at w loc then raise IsADirectoryError
      else
        match files w !! key_of loc with
        | None => raise FileNotFoundError
        | Some _ =>
            if Py.endswith_sep path then raise NotADirectoryError
            else set_files (delete (key_of loc) (files w))
        end
  end.

(** [gs.DynamicGraph(model_path)]: the graph read from a frozen model. *)
Definition DynamicGraph (model_path : string) : M gs.DynamicGraph := fun w =>
  match graph_load E model_path w with
  | (Some dynamic_graph, w') => (inr dynamic_graph, w')
  | (None, w') => (inl LibraryError, w')
  end.

(** [uff.from_tensorflow(graphdef, output_nodes,
    output_filename=output_filename, text=text)] *)
Definition uff_from_tensorflow (graphdef : gs.DynamicGraph)
    (output_nodes : list string) (output_filename : string) (text : bool)
    : M unit := fun w =>
  match uff_convert E graphdef output_nodes output_filename text w with
  | (true, w') => (inr tt, w')
  | (false, w') => (inl LibraryError, w')
  end.

(** *** The functions of the file *)

Definition model_to_uff (model_path output_uff_path : string)
    (silent : bool) : M unit :=
  dynamic_graph ← DynamicGraph model_path;
  let dynamic_graph := ssd_unsupported_nodes_to_plugin_nodes dynamic_graph in
  uff_from_tensorflow dynamic_graph [ModelData.OUTPUT_NAME] output_uff_path
    true.

Definition maybe_print (should_print : bool) (print_arg : string) : M unit :=
  if should_print then print print_arg else mret tt.

Definition maybe_mkdir (dir_path : string) : M unit :=
  present ← os_path_exists dir_path;
  if negb present then os_makedirs dir_path else mret tt.

(** The loop of [download_file] over the chunks, [dl] being the bytes
    counted so far. *)
Fixpoint download_chunks (f : string) (total_length : Z)
    (chunks : list bytes) (dl : Z) : M unit :=
  match chunks with
  | [] => mret tt
  | data :: rest =>
      let dl := (dl + Z.of_nat (length data))%Z in
      file_write f data;;
      (if Z.eqb total_length 0
       then raise ZeroDivisionError
       else stdout_write (ProgressBar dl total_length));;
      stdout_flush;;
      download_chunks f total_length rest dl
  end.

Definition download_file (file_url file_dest_path : string)
    (silent : bool) : M unit :=
  f ← open_wb file_dest_path;
  maybe_print (negb silent) ("Downloading " +:+ file_dest_path);;
  response ← requests_get file_url;
  match content_length response with
  | None => file_write f (content response)
  | Some total_length =>
      if silent then file_write f (content response)
      else
        match PyInt.int (int_max_str_digits E) total_length with
        | None => raise ValueError
        | Some total_length =>
            download_chunks f total_length (iter_content response 4096%N) 0%Z;;
            stdout_write (Str newline);;
            stdout_flush
        end
  end.

Definition is_within_directory (directory target : string) : bool :=
  let abs_directory := posixpath.abspath (getcwd E) directory in
  let abs_target := posixpath.abspath (getcwd E) target in
  let prefix := posixpath.commonprefix [abs_directory; abs_target] in
  String.eqb prefix abs_directory.

(** The loop of [safe_extract] over [tar.getmembers()]. *)
Fixpoint check_members (path : string) (members : list TarInfo) : M unit :=
  match members with
  | [] => mret tt
  | member :: rest =>
      let member_path := posixpath.join path (name member) in
      if negb (is_within_directory path member_path)
      then raise (Exception "Attempted Path Traversal in Tar File")
      else check_members path rest
  end.

Definition safe_extract (tar : TarFile) (path : string)
    (members : option (list TarInfo)) (numeric_owner : bool) : M unit :=
  check_members path tar;;
  extractall tar path members numeric_owner.

Definition download_model (model_name : string) (silent : bool) : M unit :=
  maybe_print (negb silent) "Preparing pretrained model";;
  let model_dir := get_models_dir_path E in
  maybe_mkdir model_dir;;
  let model_url := get_model_url E model_name in
  let model_archive_path :=
    posixpath.join model_dir (model_name +:+ ".tar.gz") in
  download_file model_url model_archive_path silent;;
  maybe_print (negb silent)
    ("Download complete" +:+ newline +:+ "Unpacking " +:+ model_archive_path);;
  tar ← tarfile_open model_archive_path;
  safe_extract tar model_dir None false;;
  maybe_print (negb silent)
    ("Extracting complete" +:+ newline +:+ "Removing " +:+ model_archive_path);;
  os_remove model_archive_path;;
  maybe_print (negb silent) "Model ready".

(** The default of the parameter [model_name] of [prepare_ssd_model]. *)
Definition default_model_name : string := "ssd_inception_v2_coco_2017_11_17".

Definition prepare_ssd_model (model_name : string) (silent : bool) : M unit :=
  if negb (String.eqb model_name "ssd_inception_v2_coco_2017_11_17")
  then raise (NotImplementedError
                ("Model " +:+ model_name +:+ " is not supported yet"))
  else
    download_model model_name silent;;
    let ssd_pb_path := get_model_pb_path E model_name in
    let ssd_uff_path := get_model_uff_path E model_name in
    model_to_uff ssd_pb_path ssd_uff_path silent.

End Program.

(** ** Vocabulary of the statements *)

(** The longest common leading string of two strings. *)
Fixpoint common_prefix (a b : string) : string :=
  match a, b with
  | String c r, String c' r' =>
      if Ascii.eqb c c' then String c (common_prefix r r') else EmptyString
  | _, _ => EmptyString
  end.

(** The path [abspath] normalises, and what it is made of once normalised:
    its root (the leading slashes kept) and its components. *)
Definition anchored (cwd path : string) : string :=
  if posixpath.isabs path then path else posixpath.join cwd path.

Definition root_of (cwd path : string) : nat :=
  posixpath.initial_slashes (anchored cwd path).

Definition components_of (cwd path : string) : list string :=
  posixpath.norm_comps (anchored cwd path).

(** [target] lies strictly inside [directory]: under the same root, the
    components of the directory followed by at least one more. *)
Definition strictly_inside (cwd directory target : string) : Prop :=
  root_of cwd directory = root_of cwd target
  ∧ ∃ c rest,
      components_of cwd target = components_of cwd directory ++ c :: rest.

(** *** Sample environment and worlds for the examples *)

(** The environment of a user in [/home/user], under an interpreter with
    the usual limit on the digits of a number: no network, no archive that
    can be read, and graph libraries that fail and change nothing. *)
Definition sample_env : Env :=
  mkEnv "/home/user" 4300 "models"
    (fun model_name =>
       "http://download.tensorflow.org/models/object_detection/"
       +:+ model_name +:+ ".tar.gz")
    (fun model_name => "models/" +:+ model_name +:+ "/frozen_inference_graph.pb")
    (fun model_name => "models/" +:+ model_name +:+ "/frozen_inference_graph.uff")
    (fun _ => None) (fun _ => None)
    (fun _ w => (None, w)) (fun _ _ _ _ w => (false, w)).

(** A world with nothing but the root, one with the home directory of the
    user, and one where the models directory is there as well. *)
Definition empty_world : World := mkWorld ∅ ∅ [].

Definition home_world : World := mkWorld ∅ {["/home"; "/home/user"]} [].

Definition models_world : World :=
  mkWorld ∅ {["/home"; "/home/user"; "/home/user/models"]} [].

Definition evil_member : TarInfo := mkTarInfo "../bc/evil" [x65; x76].
Definition good_member : TarInfo := mkTarInfo "saved/model.pb" [x01; x02].
Definition absolute_member : TarInfo := mkTarInfo "/etc/passwd" [x72].

(** A member that is a regular file named as the directory of
    [good_member]. *)
Definition saved_member : TarInfo := mkTarInfo "saved" [x2a].

(** The actions of the streaming loop of [download_file] on the chunks,
    from a byte counter [dl]: each chunk is written, then the progress line
    for the new counter is printed and flushed. *)
Fixpoint stream_events (f : string) (total_length : Z) (chunks : list bytes)
    (dl : Z) : list event :=
  match chunks with
  | [] => []
  | data :: rest =>
      let dl := (dl + Z.of_nat (length data))%Z in
      FileWrite f data :: Stdout (ProgressBar dl total_length) :: StdoutFlush
      :: stream_events f total_length rest dl
  end.

(** The chunks handed to [f.write], in order. *)
Definition writes_of (tr : list event) : list bytes :=
  omap (fun e => match e with FileWrite _ chunk => Some chunk | _ => None end)
       tr.

(** The two exceptions the file raises itself, and each of them. *)
Definition own (e : exn) : Prop :=
  match e with
  | NotImplementedError _ | Exception _ => True
  | _ => False
  end.

Definition is_NotImplementedError (e : exn) : Prop :=
  ∃ msg, e = NotImplementedError msg.

Definition is_Exception (e : exn) : Prop := ∃ msg, e = Exception msg.

(** A computation that never ends in an exception of the given kind. *)
Definition never_raises {A : Type} (bad : exn -> Prop) (m : M A) : Prop :=
  ∀ w e, bad e → (m w).1 ≠ inl e.

(** A response of five bytes in two chunks, and an environment whose
    network serves a given response for every address. *)
Definition sample_body : bytes := [x50; x4b; x03; x04; x0a].

Definition sample_chunks : N -> list bytes :=
  fun _ => [[x50; x4b; x03]; [x04; x0a]].

Definition sample_response : Response :=
  mkResponse (Some "5") sample_body sample_chunks.

(** The same body when the server repeats the header and the client joins
    the repeated values, as RFC 7230 section 3.3.2 allows. *)
Definition repeated_length_response : Response :=
  mkResponse (Some "5, 5") sample_body sample_chunks.

Definition serving_env (response : Response) : Env :=
  mkEnv "/home/user" 4300 "models"
    (get_model_url sample_env) (get_model_pb_path sample_env)
    (get_model_uff_path sample_env)
    (fun _ => Some response) (fun _ => None)
    (graph_load sample_env) (uff_convert sample_env).

(** The name a node goes by once every entry of a mapping is collapsed. *)
Definition collapsed_name (namespace_map : list (string * (string * gs.Node)))
    (node_name : string) : string :=
  fold_left (fun n entry => gs.rename entry.1 entry.2.1 n)
            namespace_map node_name.

(** [n] is upstream of [o]: [o] reads from [n], directly or through other
    nodes of the graph. *)
Inductive upstream (g : gs.DynamicGraph) : string -> string -> Prop :=
  | upstream_input (n o : string) (nd : gs.Node) :
      g !! o = Some nd → n ∈ gs.input nd → upstream g n o
  | upstream_through (n m o : string) :
      upstream g n m → upstream g m o → upstream g n o.

(** A small detection graph: a feature node, two nodes of the
    [Postprocessor] namespace, and the output that reads from them. *)
Definition sample_graph : gs.DynamicGraph :=
  list_to_map
    [("FeatureExtractor/conv", gs.mkNode "Conv2D" [] []);
     ("Postprocessor/foo", gs.mkNode "Reshape" [] ["FeatureExtractor/conv"]);
     ("Postprocessor/bar", gs.mkNode "Mul" [] ["Postprocessor/foo"]);
     ("detection_boxes",
      gs.mkNode "Identity" [] ["Postprocessor/bar"; "Postprocessor/foo"])].

(** What holds of a graph from the collapse of [Postprocessor] on: no node
    of the namespace is left, the [NMS] plugin node stands in the graph,
    and no node references the namespace. *)
Definition postprocessor_collapsed (g : gs.DynamicGraph) : Prop :=
  (∀ k, gs.in_namespace "Postprocessor" k = true → g !! k = None)
  ∧ (∃ nms, g !! "NMS" = Some nms
            ∧ gs.op nms = "NMS_TRT" ∧ gs.attr nms = gs.attr NMS.2)
  ∧ (∀ k nd i, g !! k = Some nd → i ∈ gs.input nd →
               gs.in_namespace "Postprocessor" i = false).

(** The node named [m] reads from [NMS]. *)
Definition reads_NMS (g : gs.DynamicGraph) (m : string) : Prop :=
  ∃ nd, g !! m = Some nd ∧ "NMS" ∈ gs.input nd.

(** An entry of a mapping that neither collapses [NMS] nor replaces it,
    and whose plugin is not of the [Postprocessor] namespace. *)
Definition spares_NMS (entry : string * (string * gs.Node)) : Prop :=
  gs.in_namespace entry.1 "NMS" = false
  ∧ entry.2.1 ≠ "NMS"
  ∧ gs.in_namespace "Postprocessor" entry.2.1 = false.

(** ** Vocabulary of the further properties *)

(** What reaches the console: the texts written to standard output and the
    flushes. *)
Definition is_console (e : event) : bool :=
  match e with
  | Stdout _ | StdoutFlush => true
  | _ => false
  end.

Definition console_of (tr : list event) : list event :=
  filter (fun e => is_console e = true) tr.

(** A computation that sends nothing to the console, however it ends. *)
Definition quiet {A : Type} (m : M A) : Prop :=
  ∀ w, console_of (trace (m w).2) = console_of (trace w).

(** A computation that, however it ends, leaves the directories and every
    file but [f] as they were. *)
Definition writes_only {A : Type} (f : string) (m : M A) : Prop :=
  ∀ w, dirs (m w).2 = dirs w
       ∧ ∀ p, p ≠ f → files (m w).2 !! p = files w !! p.

(** A computation that, however it ends, touches no file and takes no
    directory away. *)
Definition makes_directories_only {A : Type} (m : M A) : Prop :=
  ∀ w, files (m w).2 = files w ∧ dirs w ⊆ dirs (m w).2.



#[global] Instance byte_eq_decision : EqDecision byte := Byte.byte_eq_dec.

(** An environment whose network serves [response] and whose archive
    decoder reads the body of [response] as the archive [tar]. *)
Definition archive_env (response : Response) (tar : TarFile) : Env :=
  mkEnv "/home/user" 4300 "models"
    (get_model_url sample_env) (get_model_pb_path sample_env)
    (get_model_uff_path sample_env)
    (fun _ => Some response)
    (fun archive =>
       if bool_decide (archive = content response) then Some tar else None)
    (graph_load sample_env) (uff_convert sample_env).

(** A response without a [content-length] header. *)
Definition plain_response : Response :=
  mkResponse None sample_body sample_chunks.

(** A response whose header reads as zero although a body follows. *)
Definition zero_length_response : Response :=
  mkResponse (Some "0") sample_body sample_chunks.

(** The path [download_model] saves the archive of a model under. *)
Definition model_archive_path (E : Env) (model_name : string) : string :=
  posixpath.join (get_models_dir_path E) (model_name +:+ ".tar.gz").

(** An archive with a member that leads out of the models directory, and
    one that stays inside. *)
Definition poisoned_tar : TarFile := [good_member; evil_member].
Definition clean_tar : TarFile := [good_member].

(** A component that names something: not empty, not [.] and not [..]. *)
Definition plain (c : string) : Prop := c ≠ "" ∧ c ≠ "." ∧ c ≠ "..".

(** The exceptions of a system call that cannot follow a path. *)
Definition path_error (e : exn) : Prop :=
  e = ValueError ∨ e = FileNotFoundError ∨ e = NotADirectoryError.

(** The bytes [download_file] has written by the time it returns: the
    whole body when it was written in one piece, the chunks put together
    when it was streamed. *)
Definition downloaded (response : Response) (silent : bool) : bytes :=
  if bool_decide (content_length response = None) || silent
  then content response
  else concat (iter_content response 4096%N).

(** The home of the user with a regular file named [saved] in it. *)
Definition taken_world : World :=
  mkWorld {["/home/user/saved" := [x2a]]} {["/home"; "/home/user"]} [].

(** A literal of [k] digits. *)
Definition ones (k : nat) : string :=
  string_of_list_ascii (replicate k "1"%char).

(** * Properties *)

(** ** The definitions at work *)

Example split_ex : Py.split_sep "/a//b/" = [""; "a"; ""; "b"; ""].
Proof. reflexivity. Qed.

Example normpath_ex1 : posixpath.normpath "/a/b/../bc/./evil/" = "/a/bc/evil".
Proof. reflexivity. Qed.

Example normpath_ex2 : posixpath.normpath "//a/../../b" = "//b".
Proof. reflexivity. Qed.

Example normpath_ex3 : posixpath.normpath "///a" = "/a".
Proof. reflexivity. Qed.

Example normpath_ex4 : posixpath.normpath "a/../.." = "..".
Proof. reflexivity. Qed.

Example abspath_ex : posixpath.abspath "/home/u" "models/../x" = "/home/u/x".
Proof. reflexivity. Qed.

Example commonprefix_ex :
  posixpath.commonprefix ["/a/b"; "/a/bc/evil"] = "/a/b".
Proof. reflexivity. Qed.

Example int_plain : PyInt.int 4300 "1024" = Some 1024%Z.
Proof. reflexivity. Qed.

Example int_grouped : PyInt.int 4300 " 1_000 " = Some 1000%Z.
Proof. reflexivity. Qed.

Example int_signed : PyInt.int 4300 "-7" = Some (-7)%Z.
Proof. reflexivity. Qed.

Example int_repeated : PyInt.int 4300 "5, 5" = None.
Proof. reflexivity. Qed.

Example int_double_underscore : PyInt.int 4300 "1__0" = None.
Proof. reflexivity. Qed.

Example concat_1_not_in_concat : gs.in_namespace "concat" "concat_1" = false.
Proof. reflexivity. Qed.

Example foo_in_postprocessor :
  gs.in_namespace "Postprocessor" "Postprocessor/foo" = true.
Proof. reflexivity. Qed.

Example rstrip_sep_ex :
  Py.rstrip_sep "a/b//" = "a/b" ∧ Py.rstrip_sep "//" = "".
Proof. split; reflexivity. Qed.

Example path_split_ex1 : posixpath.split "/a/b/../bc" = ("/a/b/..", "bc").
Proof. reflexivity. Qed.

Example path_split_ex2 : posixpath.split "a/b//" = ("a/b", "").
Proof. reflexivity. Qed.

Example path_split_ex3 : posixpath.split "//a" = ("//", "a").
Proof. reflexivity. Qed.

Example dirname_ex : posixpath.dirname "models/saved/model.pb" = "models/saved".
Proof. reflexivity. Qed.

(** [int] refuses a number of more digits than the limit of the
    interpreter, and any number when there is no limit. *)
Example int_digit_limit :
  PyInt.int 4300 (ones 4301) = None
  ∧ is_Some (PyInt.int 4300 (ones 4300))
  ∧ is_Some (PyInt.int 0 (ones 4301)).
Proof.
  split_and!; [vm_compute; reflexivity|..];
    refine (bool_decide_unpack _ _); vm_compute; exact I.
Qed.

(** The system finds no way through a directory that is not there, where
    [resolve] only reads the path. *)
Example locate_missing_directory :
  locate sample_env home_world "models/../x" = inl FileNotFoundError
  ∧ locate sample_env models_world "models/../x" = inr ["home"; "user"; "x"]
  ∧ resolve sample_env "models/../x" = "/home/user/x".
Proof. split_and!; vm_compute; reflexivity. Qed.

Example open_missing_directory :
  open_wb sample_env "nodir/a.tar.gz" home_world
  = (inl FileNotFoundError,
     mkWorld ∅ (dirs home_world) [OpenWb "nodir/a.tar.gz"]).
Proof. vm_compute. reflexivity. Qed.

Example open_directory :
  (open_wb sample_env "models" models_world).1 = inl IsADirectoryError
  ∧ (open_wb sample_env "a.tar.gz/" home_world).1 = inl IsADirectoryError.
Proof. split; vm_compute; reflexivity. Qed.

(** ** Facts about strings and paths *)

Lemma append_cons (c : ascii) (s t : string) :
  String c s +:+ t = String c (s +:+ t).
Proof. reflexivity. Qed.

Lemma prefix_nil (s : string) : String.prefix "" s = true.
Proof. by destruct s. Qed.

Lemma prefix_refl (s : string) : String.prefix s s = true.
Proof.
  induction s as [|c s IH]; [done|].
  simpl. by destruct (ascii_dec c c).
Qed.

Lemma prefix_append (s t : string) : String.prefix s (s +:+ t) = true.
Proof.
  induction s as [|c s IH]; [apply prefix_nil|].
  rewrite append_cons. simpl. by destruct (ascii_dec c c).
Qed.

Lemma prefix_append_same (s t u : string) :
  String.prefix (s +:+ t) (s +:+ u) = String.prefix t u.
Proof.
  induction s as [|c s IH]; [done|].
  rewrite !append_cons. simpl. by destruct (ascii_dec c c).
Qed.

Lemma common_prefix_comm (a b : string) : common_prefix a b = common_prefix b a.
Proof.
  revert b. induction a as [|c a IH]; intros [|c' b]; simpl; try done.
  rewrite (Ascii.eqb_sym c' c).
  destruct (Ascii.eqb c c') eqn:Hc; [|done].
  apply Ascii.eqb_eq in Hc as ->. by rewrite IH.
Qed.

Lemma common_prefix_is_prefix (a b : string) :
  String.eqb (common_prefix a b) a = String.prefix a b.
Proof.
  revert b. induction a as [|c a IH]; intros [|c' b]; simpl; try done.
  destruct (ascii_dec c c') as [->|Hne].
  - rewrite Ascii.eqb_refl. simpl. rewrite Ascii.eqb_refl. apply IH.
  - destruct (Ascii.eqb c c') eqn:Hc; [by apply Ascii.eqb_eq in Hc|done].
Qed.

(** The scan from the lesser string to the greater one never leaves the
    greater one, and finds the common leading string. *)
Lemma prefix_scan_ordered (s1 s2 : string) :
  String.compare s1 s2 ≠ Gt →
  posixpath.prefix_scan s1 s2 = Some (common_prefix s1 s2).
Proof.
  revert s2. induction s1 as [|c s1 IH]; intros [|c' s2] Hle; simpl in *;
    try done.
  destruct (Ascii.eqb c c') eqn:Hc; [|done].
  apply Ascii.eqb_eq in Hc as ->.
  assert (Ascii.compare c' c' = Eq) as Hcc.
  { unfold Ascii.compare. apply N.compare_refl. }
  rewrite Hcc in Hle. by rewrite IH.
Qed.

Lemma compare_refl (s : string) : String.compare s s = Eq.
Proof.
  induction s as [|c s IH]; [done|]. simpl.
  unfold Ascii.compare. by rewrite N.compare_refl.
Qed.

Lemma min_max_scan (a b : string) :
  posixpath.prefix_scan (Py.min_str a [b]) (Py.max_str a [b])
  = Some (common_prefix a b).
Proof.
  unfold Py.min_str, Py.max_str, String.ltb. simpl.
  pose proof (String.compare_antisym b a) as Hba.
  destruct (String.compare a b) eqn:Hab; rewrite Hba; simpl.
  - apply String.compare_eq_iff in Hab as ->.
    apply prefix_scan_ordered. by rewrite compare_refl.
  - apply prefix_scan_ordered. by rewrite Hab.
  - rewrite (common_prefix_comm a b). apply prefix_scan_ordered.
    by rewrite Hba.
Qed.

(** [commonprefix] never indexes past the end of the greater string. *)
Lemma commonprefix_in_range (a b : string) :
  is_Some (posixpath.prefix_scan (Py.min_str a [b]) (Py.max_str a [b])).
Proof. rewrite min_max_scan. eauto. Qed.

Lemma commonprefix_pair (a b : string) :
  posixpath.commonprefix [a; b] = common_prefix a b.
Proof. unfold posixpath.commonprefix. by rewrite min_max_scan. Qed.

(** The check of [is_within_directory] is the string-prefix test between
    the two absolute paths. *)
Lemma is_within_directory_prefix (E : Env) (directory target : string) :
  is_within_directory E directory target
  = String.prefix (posixpath.abspath (getcwd E) directory)
                  (posixpath.abspath (getcwd E) target).
Proof.
  unfold is_within_directory. rewrite commonprefix_pair.
  apply common_prefix_is_prefix.
Qed.

Lemma isabs_cons (s : string) :
  posixpath.isabs s = true ↔ ∃ r, s = String "/" r.
Proof.
  unfold posixpath.isabs, Py.startswith.
  destruct s as [|c r]; cbn -[ascii_dec].
  - split; [done|]. by intros [? ?].
  - destruct (ascii_dec "/" c) as [<-|Hne].
    + rewrite prefix_nil. split; eauto.
    + split; [done|]. intros [? [= ? ?]]. congruence.
Qed.

Lemma anchored_isabs (cwd path : string) :
  posixpath.isabs cwd = true → posixpath.isabs (anchored cwd path) = true.
Proof.
  intros Hcwd. unfold anchored.
  destruct (posixpath.isabs path) eqn:Hp; [done|].
  unfold posixpath.join. fold (posixpath.isabs path). rewrite Hp.
  apply isabs_cons in Hcwd as [r ->].
  apply isabs_cons. destruct (_ || _); rewrite append_cons; eauto.
Qed.

Lemma normpath_isabs (p : string) :
  posixpath.isabs p = true →
  posixpath.normpath p
  = String "/" (Py.sep_times (pred (posixpath.initial_slashes p))
                +:+ Py.join_sep (posixpath.norm_comps p)).
Proof.
  intros Hp. unfold posixpath.normpath, posixpath.render.
  assert (∃ k, posixpath.initial_slashes p = S k) as [k Hk].
  { unfold posixpath.initial_slashes. fold (posixpath.isabs p). rewrite Hp.
    destruct (_ && _); eauto. }
  apply isabs_cons in Hp as [r ->]. rewrite Hk. simpl.
  by rewrite append_cons.
Qed.

Lemma join_sep_cons (c : string) (l : list string) :
  Py.join_sep (c :: l)
  = c +:+ (if bool_decide (l = []) then "" else "/" +:+ Py.join_sep l).
Proof.
  destruct l as [|c' l]; simpl.
  - induction c as [|a c IH]; [done|]. rewrite append_cons. by rewrite <- IH.
  - done.
Qed.

Lemma join_sep_app_prefix (a b : list string) :
  String.prefix (Py.join_sep a) (Py.join_sep (a ++ b)) = true.
Proof.
  induction a as [|c a IH]; [apply prefix_nil|].
  rewrite <- app_comm_cons, !join_sep_cons, prefix_append_same.
  destruct a as [|c' a]; [apply prefix_nil|].
  rewrite <- app_comm_cons. rewrite !bool_decide_eq_false_2 by done.
  by rewrite prefix_append_same.
Qed.

(** A target strictly inside the directory has the directory's absolute
    path as a leading string of its own. *)
Lemma strictly_inside_prefix (cwd directory target : string) :
  posixpath.isabs cwd = true →
  strictly_inside cwd directory target →
  String.prefix (posixpath.abspath cwd directory)
                (posixpath.abspath cwd target) = true.
Proof.
  intros Hcwd [Hroot (c & rest & Hcomps)].
  unfold posixpath.abspath. fold (anchored cwd directory) (anchored cwd target).
  rewrite !normpath_isabs by by apply anchored_isabs.
  fold (root_of cwd directory) (root_of cwd target).
  fold (components_of cwd directory) (components_of cwd target).
  rewrite Hroot, Hcomps. simpl. destruct (ascii_dec "/" "/"); [|done].
  rewrite prefix_append_same. apply join_sep_app_prefix.
Qed.

Lemma prefix_app_iff (a b : string) :
  String.prefix a b = true ↔ ∃ rest, b = a +:+ rest.
Proof.
  split.
  - revert b. induction a as [|c a IH]; intros b Hp; [by exists b|].
    destruct b as [|c' b]; [done|]. cbn -[ascii_dec] in Hp.
    destruct (ascii_dec c c') as [->|]; [|done].
    destruct (IH b Hp) as [rest ->]. by exists rest.
  - intros [rest ->]. apply prefix_append.
Qed.

Lemma append_nil_r (s : string) : s +:+ "" = s.
Proof. induction s as [|c s IH]; [done|]. by rewrite append_cons, IH. Qed.

Lemma append_assoc (a b c : string) : (a +:+ b) +:+ c = a +:+ b +:+ c.
Proof. induction a as [|x a IH]; [done|]. by rewrite !append_cons, IH. Qed.

Lemma prefix_cons (a b : ascii) (s t : string) :
  String.prefix (String a s) (String b t)
  = if ascii_dec a b then String.prefix s t else false.
Proof. reflexivity. Qed.

Lemma isabs_append (a b : string) :
  a ≠ "" → posixpath.isabs (a +:+ b) = posixpath.isabs a.
Proof.
  destruct a as [|c a]; [done|]. intros _. rewrite append_cons.
  unfold posixpath.isabs, Py.startswith. rewrite !prefix_cons.
  destruct (ascii_dec "/" c); [by rewrite !prefix_nil|done].
Qed.

Lemma endswith_sep_append (a b : string) :
  b ≠ "" → Py.endswith_sep (a +:+ b) = Py.endswith_sep b.
Proof.
  intros Hb. induction a as [|c a IH]; [done|].
  rewrite append_cons. cbn [Py.endswith_sep].
  destruct (a +:+ b) as [|c' r] eqn:Hab; [|done].
  destruct a; [|done]. cbn in Hab. done.
Qed.

Lemma endswith_sep_split (a : string) :
  Py.endswith_sep a = true → ∃ a', a = a' +:+ "/".
Proof.
  induction a as [|c a IH]; [done|]. cbn [Py.endswith_sep].
  destruct a as [|c' a].
  - intros Hc. apply Ascii.eqb_eq in Hc as ->. by exists "".
  - intros Ha. destruct (IH Ha) as [a' ->]. by exists (String c a').
Qed.

Lemma split_sep_nonempty (s : string) : Py.split_sep s ≠ [].
Proof.
  destruct s as [|c s]; [done|]. cbn [Py.split_sep].
  destruct (Ascii.eqb c "/"); [done|]. by destruct (Py.split_sep s).
Qed.

Lemma split_sep_append (a b : string) :
  Py.split_sep (a +:+ "/" +:+ b) = Py.split_sep a ++ Py.split_sep b.
Proof.
  induction a as [|c a IH]; [done|].
  rewrite append_cons. cbn [Py.split_sep].
  destruct (Ascii.eqb c "/"); rewrite IH; [done|].
  pose proof (split_sep_nonempty a) as Hne.
  by destruct (Py.split_sep a).
Qed.

(** The loop of [normpath] only grows its list on components other than
    [..]. *)
Lemma norm_fold_without_dotdot (k : nat) (comps acc : list string) :
  ".." ∉ comps →
  fold_left (posixpath.norm_step k) comps acc
  = acc ++ filter (fun c => c ≠ "" ∧ c ≠ ".") comps.
Proof.
  revert acc. induction comps as [|c comps IH]; intros acc Hno.
  - cbn. by rewrite app_nil_r.
  - apply not_elem_of_cons in Hno as [Hc Hno].
    cbn [fold_left]. rewrite IH by done. rewrite filter_cons.
    unfold posixpath.norm_step.
    destruct (String.eqb c "") eqn:He.
    { apply String.eqb_eq in He as ->. cbn [orb].
      rewrite decide_False; [done|]. by intros [? _]. }
    destruct (String.eqb c ".") eqn:Hd.
    { apply String.eqb_eq in Hd as ->. cbn [orb].
      rewrite decide_False; [done|]. by intros [_ ?]. }
    apply String.eqb_neq in He, Hd. cbn [orb].
    assert (String.eqb c ".." = false) as -> by (apply String.eqb_neq; congruence).
    cbn [negb orb]. rewrite decide_True by done.
    by rewrite <- app_assoc.
Qed.

Lemma norm_step_empty (k : nat) (acc : list string) :
  posixpath.norm_step k acc "" = acc.
Proof. reflexivity. Qed.

(** The leading slashes are those of the first three characters. *)
Lemma initial_slashes_append (a x : string) :
  posixpath.isabs a = true →
  (Py.endswith_sep a = true → posixpath.isabs x = false) →
  posixpath.initial_slashes (a +:+ x) = posixpath.initial_slashes a.
Proof.
  intros Ha Hx. apply isabs_cons in Ha as [r ->].
  assert (∀ s, posixpath.isabs s = false → String.prefix "/" s = false)
    as Hrel by done.
  unfold posixpath.initial_slashes, Py.startswith.
  destruct r as [|c2 r].
  { specialize (Hx eq_refl). apply Hrel in Hx.
    rewrite append_cons. change ("" +:+ x) with x.
    rewrite !prefix_cons. destruct (ascii_dec "/" "/"); [|done].
    rewrite prefix_nil. destruct x as [|c x]; [done|].
    rewrite prefix_cons in Hx |- *.
    destruct (ascii_dec "/" c); [by rewrite prefix_nil in Hx|done]. }
  destruct r as [|c3 r].
  { rewrite !append_cons. change ("" +:+ x) with x. rewrite !prefix_cons.
    destruct (ascii_dec "/" "/"); [|done].
    destruct (ascii_dec "/" c2) as [<-|Hc2]; [|by rewrite !prefix_nil].
    specialize (Hx eq_refl). apply Hrel in Hx. rewrite !prefix_nil.
    destruct x as [|c x]; [done|]. rewrite prefix_cons in Hx |- *.
    destruct (ascii_dec "/" c); [by rewrite prefix_nil in Hx|done]. }
  rewrite !append_cons, !prefix_cons.
  destruct (ascii_dec "/" "/"); [|done].
  destruct (ascii_dec "/" c2); [|by rewrite !prefix_nil].
  destruct (ascii_dec "/" c3); by rewrite !prefix_nil.
Qed.

Lemma join_relative (a b : string) :
  posixpath.isabs b = false →
  posixpath.join a b
  = if String.eqb a "" || Py.endswith_sep a then a +:+ b
    else a +:+ "/" +:+ b.
Proof.
  intros Hb. unfold posixpath.join. fold (posixpath.isabs b). by rewrite Hb.
Qed.

(** Joining a relative name puts it behind the anchored directory, with a
    separator unless the directory ends with one. *)
Lemma anchored_join (cwd path member_name : string) :
  posixpath.isabs cwd = true →
  posixpath.isabs member_name = false →
  (Py.endswith_sep (anchored cwd path) = true
   ∧ anchored cwd (posixpath.join path member_name)
     = anchored cwd path +:+ member_name)
  ∨ (Py.endswith_sep (anchored cwd path) = false
     ∧ anchored cwd (posixpath.join path member_name)
       = anchored cwd path +:+ "/" +:+ member_name).
Proof.
  intros Hcwd Hname.
  assert (cwd ≠ "") as Hcwd_ne by (by destruct cwd).
  assert (String.eqb cwd "" = false) as Hcwd_eqb by by apply String.eqb_neq.
  unfold anchored. rewrite (join_relative path member_name) by done.
  destruct (posixpath.isabs path) eqn:Hpath.
  - assert (path ≠ "") as Hne by (by destruct path).
    assert (String.eqb path "" = false) as -> by by apply String.eqb_neq.
    cbn [orb]. destruct (Py.endswith_sep path) eqn:Hend.
    + left. by rewrite isabs_append, Hpath.
    + right. by rewrite isabs_append, Hpath.
  - rewrite (join_relative cwd path) by done. rewrite Hcwd_eqb. cbn [orb].
    destruct (String.eqb path "") eqn:Hempty.
    + apply String.eqb_eq in Hempty as ->. cbn [orb].
      change ("" +:+ member_name) with member_name.
      rewrite Hname, (join_relative cwd member_name) by done.
      rewrite Hcwd_eqb. cbn [orb]. left.
      destruct (Py.endswith_sep cwd) eqn:Hend.
      * by rewrite append_nil_r.
      * change ("/" +:+ "") with "/". split.
        -- by rewrite endswith_sep_append.
        -- by rewrite append_assoc.
    + apply String.eqb_neq in Hempty. cbn [orb].
      assert (posixpath.isabs
                (if Py.endswith_sep path then path +:+ member_name
                 else path +:+ "/" +:+ member_name) = false) as Hrel.
      { destruct (Py.endswith_sep path); by rewrite isabs_append. }
      rewrite Hrel, join_relative by done. rewrite Hcwd_eqb. cbn [orb].
      assert (Py.endswith_sep
                (if Py.endswith_sep cwd then cwd +:+ path
                 else cwd +:+ "/" +:+ path) = Py.endswith_sep path) as Hend.
      { destruct (Py.endswith_sep cwd).
        - by apply endswith_sep_append.
        - rewrite <- append_assoc. by apply endswith_sep_append. }
      rewrite Hend.
      destruct (Py.endswith_sep path); [left|right]; split; try done;
        destruct (Py.endswith_sep cwd); by rewrite ?append_assoc.
Qed.

(** The components of the joined path are those of the directory, followed
    by the components of the name that are neither empty nor [.]. *)
Lemma components_of_join (cwd path member_name : string) :
  posixpath.isabs cwd = true →
  posixpath.isabs member_name = false →
  ".." ∉ Py.split_sep member_name →
  root_of cwd (posixpath.join path member_name) = root_of cwd path
  ∧ components_of cwd (posixpath.join path member_name)
    = components_of cwd path
      ++ filter (fun c => c ≠ "" ∧ c ≠ ".") (Py.split_sep member_name).
Proof.
  intros Hcwd Hname Hno.
  pose proof (anchored_isabs cwd path Hcwd) as Habs.
  unfold root_of, components_of, posixpath.norm_comps.
  destruct (anchored_join cwd path member_name Hcwd Hname)
    as [[Hend ->]|[Hend ->]].
  - rewrite initial_slashes_append by done. split; [done|].
    destruct (endswith_sep_split _ Hend) as [a' Ha']. rewrite Ha'.
    rewrite append_assoc.
    change (Py.split_sep (a' +:+ "/"))
      with (Py.split_sep (a' +:+ "/" +:+ "")).
    rewrite !split_sep_append, !fold_left_app.
    cbn [Py.split_sep fold_left]. rewrite norm_step_empty.
    by apply norm_fold_without_dotdot.
  - rewrite initial_slashes_append by (done || congruence). split; [done|].
    rewrite split_sep_append, fold_left_app.
    by apply norm_fold_without_dotdot.
Qed.

Lemma Forall_removelast {A : Type} (P : A -> Prop) (l : list A) :
  Forall P l → Forall P (removelast l).
Proof.
  induction 1 as [|x l Hx Hl IH]; [done|].
  cbn [removelast]. destruct l; [done|]. by constructor.
Qed.

(** *** Trailing slashes *)

Lemma isabs_String (c : ascii) (s : string) :
  posixpath.isabs (String c s) = Ascii.eqb c "/".
Proof.
  unfold posixpath.isabs, Py.startswith. rewrite prefix_cons, prefix_nil.
  destruct (ascii_dec "/" c) as [<-|Hne]; [done|].
  symmetry. apply Ascii.eqb_neq. congruence.
Qed.

Lemma isabs_rstrip_sep (s : string) :
  Py.rstrip_sep s ≠ "" →
  posixpath.isabs (Py.rstrip_sep s) = posixpath.isabs s.
Proof.
  destruct s as [|c s]; [done|]. cbn [Py.rstrip_sep].
  destruct (_ && _); [done|]. intros _. by rewrite !isabs_String.
Qed.

(** The pieces of a path without its trailing slashes are those of the
    path, short of empty pieces at the end. *)
Lemma split_sep_rstrip (s : string) :
  ∃ k, Py.split_sep s
       = (if String.eqb (Py.rstrip_sep s) "" then []
          else Py.split_sep (Py.rstrip_sep s)) ++ replicate k "".
Proof.
  induction s as [|c s [k IH]]; [by exists 1|].
  cbn [Py.rstrip_sep Py.split_sep].
  destruct (Ascii.eqb c "/") eqn:Hc; cbn [andb].
  - destruct (String.eqb (Py.rstrip_sep s) "") eqn:Hs.
    + exists (S k). rewrite IH. done.
    + exists k. cbn [String.eqb Py.split_sep]. by rewrite Hc, IH.
  - cbn [String.eqb Py.split_sep]. rewrite Hc.
    destruct (String.eqb (Py.rstrip_sep s) "") eqn:Hs.
    + apply String.eqb_eq in Hs. rewrite Hs. cbn [Py.split_sep].
      rewrite IH. cbn [app]. destruct k as [|k]; [|by exists k].
      by exists 0.
    + exists k. rewrite IH.
      pose proof (split_sep_nonempty (Py.rstrip_sep s)) as Hne.
      by destruct (Py.split_sep (Py.rstrip_sep s)).
Qed.

Lemma norm_fold_empties (slashes k : nat) (acc : list string) :
  fold_left (posixpath.norm_step slashes) (replicate k "") acc = acc.
Proof. induction k as [|k IH]; [done|]. exact IH. Qed.

Lemma norm_fold_rstrip (slashes : nat) (s : string) (acc : list string) :
  Py.rstrip_sep s ≠ "" →
  fold_left (posixpath.norm_step slashes) (Py.split_sep (Py.rstrip_sep s)) acc
  = fold_left (posixpath.norm_step slashes) (Py.split_sep s) acc.
Proof.
  intros Hne. destruct (split_sep_rstrip s) as [k ->].
  apply String.eqb_neq in Hne. rewrite Hne.
  by rewrite fold_left_app, norm_fold_empties.
Qed.

(** *** Relative paths stay relative *)

Lemma split_sep_relative (s : string) :
  Forall (fun c => posixpath.isabs c = false) (Py.split_sep s).
Proof.
  induction s as [|c s IH]; [by repeat constructor|].
  cbn [Py.split_sep]. destruct (Ascii.eqb c "/") eqn:Hc.
  - by constructor.
  - destruct (Py.split_sep s) as [|h t].
    + repeat constructor. by rewrite isabs_String.
    + apply Forall_cons in IH as [_ Ht]. constructor; [|done].
      by rewrite isabs_String.
Qed.

Lemma norm_step_relative (slashes : nat) (acc : list string) (c : string) :
  posixpath.isabs c = false →
  Forall (fun c => c ≠ "" ∧ posixpath.isabs c = false) acc →
  Forall (fun c => c ≠ "" ∧ posixpath.isabs c = false)
         (posixpath.norm_step slashes acc c).
Proof.
  intros Hc Hacc. unfold posixpath.norm_step.
  destruct (String.eqb c "") eqn:He; [done|].
  apply String.eqb_neq in He. cbn [orb].
  destruct (String.eqb c "."); [done|].
  destruct (_ || _).
  - apply Forall_app. split; [done|]. by repeat constructor.
  - destruct (bool_decide _); [|done]. by apply Forall_removelast.
Qed.

Lemma norm_fold_relative (slashes : nat) (comps acc : list string) :
  Forall (fun c => posixpath.isabs c = false) comps →
  Forall (fun c => c ≠ "" ∧ posixpath.isabs c = false) acc →
  Forall (fun c => c ≠ "" ∧ posixpath.isabs c = false)
         (fold_left (posixpath.norm_step slashes) comps acc).
Proof.
  intros Hcomps. revert acc.
  induction Hcomps as [|c comps Hc _ IH]; intros acc Hacc; [done|].
  cbn [fold_left]. by apply IH, norm_step_relative.
Qed.

Lemma normpath_relative (p : string) :
  posixpath.isabs p = false → posixpath.isabs (posixpath.normpath p) = false.
Proof.
  intros Hp. unfold posixpath.normpath.
  destruct (String.eqb p ""); [done|].
  unfold posixpath.initial_slashes. fold (posixpath.isabs p). rewrite Hp.
  unfold posixpath.render, posixpath.norm_comps.
  unfold posixpath.initial_slashes. fold (posixpath.isabs p). rewrite Hp.
  cbn [Py.sep_times]. change ("" +:+ ?s) with s.
  destruct (String.eqb _ ""); [done|].
  pose proof (norm_fold_relative 0 (Py.split_sep p) []
                (split_sep_relative p) (Forall_nil_2 _)) as Hrel.
  destruct (fold_left _ _ _) as [|c comps]; [done|].
  apply Forall_cons in Hrel as [[Hne Hc] _].
  rewrite join_sep_cons. by rewrite isabs_append.
Qed.

(** *** The file a path names *)

Lemma norm_fold_slashes (k : nat) (comps acc : list string) :
  fold_left (posixpath.norm_step (S k)) comps acc
  = fold_left (posixpath.norm_step 1) comps acc.
Proof.
  revert acc. induction comps as [|c comps IH]; intros acc; [done|].
  cbn [fold_left]. by rewrite IH.
Qed.

Lemma norm_comps_rooted (p : string) :
  posixpath.isabs p = true →
  posixpath.norm_comps p
  = fold_left (posixpath.norm_step 1) (Py.split_sep p) [].
Proof.
  intros Hp. unfold posixpath.norm_comps, posixpath.initial_slashes.
  fold (posixpath.isabs p). rewrite Hp.
  destruct (_ && _); [apply norm_fold_slashes|done].
Qed.

Section Resolve.

Context (E : Env).

(** Trailing slashes do not change the file a path names. *)
Lemma resolve_rstrip (path : string) :
  Py.rstrip_sep path ≠ "" → resolve E (Py.rstrip_sep path) = resolve E path.
Proof.
  intros Hne. unfold resolve, start_of.
  by rewrite isabs_rstrip_sep, norm_fold_rstrip.
Qed.

(** Under a root of one slash, the file a path names is the one
    [os.path.abspath] spells. *)
Lemma resolve_abspath (path : string) :
  posixpath.isabs (anchored (getcwd E) path) = true →
  root_of (getcwd E) path = 1 →
  resolve E path = posixpath.abspath (getcwd E) path.
Proof.
  intros Habs Hroot. unfold posixpath.abspath.
  fold (anchored (getcwd E) path). rewrite normpath_isabs by done.
  fold (root_of (getcwd E) path). rewrite Hroot. cbn [pred Py.sep_times].
  change ("" +:+ ?s) with s. unfold resolve, key_of. do 2 f_equal.
  rewrite norm_comps_rooted by done.
  unfold anchored, start_of in *.
  destruct (posixpath.isabs path) eqn:Hpath; [done|].
  rewrite join_relative in Habs |- * by done.
  destruct (String.eqb (getcwd E) "") eqn:Hcwd.
  { apply String.eqb_eq in Hcwd. rewrite Hcwd in Habs.
    change (posixpath.isabs path = true) in Habs. congruence. }
  apply String.eqb_neq in Hcwd. cbn [orb] in *. unfold cwd_comps.
  destruct (Py.endswith_sep (getcwd E)) eqn:Hend.
  - destruct (endswith_sep_split _ Hend) as [a' Ha']. rewrite Ha'.
    rewrite append_assoc.
    change (Py.split_sep (a' +:+ "/"))
      with (Py.split_sep (a' +:+ "/" +:+ "")).
    rewrite !split_sep_append, !fold_left_app.
    cbn [Py.split_sep fold_left]. by rewrite norm_step_empty.
  - by rewrite split_sep_append, fold_left_app.
Qed.

(** A path that [os.path.abspath] spells with one leading slash is
    anchored at the root. *)
Lemma abspath_rooted (path rest : string) (c : ascii) :
  posixpath.abspath (getcwd E) path = String "/" (String c rest) →
  c ≠ "/"%char →
  posixpath.isabs (anchored (getcwd E) path) = true
  ∧ root_of (getcwd E) path = 1.
Proof.
  unfold posixpath.abspath. fold (anchored (getcwd E) path).
  intros Hspelt Hc.
  destruct (posixpath.isabs (anchored (getcwd E) path)) eqn:Habs.
  2: { apply normpath_relative in Habs. by rewrite Hspelt in Habs. }
  split; [done|]. rewrite normpath_isabs in Hspelt by done.
  unfold root_of. revert Hspelt. unfold posixpath.initial_slashes.
  fold (posixpath.isabs (anchored (getcwd E) path)). rewrite Habs.
  destruct (_ && _); [|done]. cbn. intros [= ? _]. congruence.
Qed.

End Resolve.

(** ** The file system *)

Lemma last_plain (acc : list string) :
  Forall plain acc → last acc ≠ Some "..".
Proof.
  intros Hacc Hlast. apply last_Some in Hlast as [l' ->].
  apply Forall_app in Hacc as [_ Hlast].
  apply Forall_cons in Hlast as [(_ & _ & Hdd) _]. done.
Qed.

(** The loop of [normpath] under a root keeps a list of names, and a
    [..] takes the last name away. *)
Lemma norm_step_dotdot (acc : list string) :
  Forall plain acc → posixpath.norm_step 1 acc ".." = removelast acc.
Proof.
  intros Hacc. unfold posixpath.norm_step. cbn [String.eqb Ascii.eqb orb negb].
  cbn. rewrite (bool_decide_eq_false_2 (last acc = Some ".."))
    by by apply last_plain.
  rewrite andb_false_r. destruct acc; [done|].
  by rewrite bool_decide_eq_true_2.
Qed.

Lemma norm_step_name (k : nat) (acc : list string) (c : string) :
  plain c → posixpath.norm_step k acc c = acc ++ [c].
Proof.
  intros (He & Hd & Hdd). unfold posixpath.norm_step.
  apply String.eqb_neq in He, Hd, Hdd. by rewrite He, Hd, Hdd.
Qed.

Lemma norm_step_plain (acc : list string) (c : string) :
  Forall plain acc → Forall plain (posixpath.norm_step 1 acc c).
Proof.
  intros Hacc.
  destruct (String.eqb c "") eqn:He.
  { apply String.eqb_eq in He as ->. done. }
  destruct (String.eqb c ".") eqn:Hd.
  { apply String.eqb_eq in Hd as ->. done. }
  destruct (String.eqb c "..") eqn:Hdd.
  { apply String.eqb_eq in Hdd as ->. rewrite norm_step_dotdot by done.
    by apply Forall_removelast. }
  apply String.eqb_neq in He, Hd, Hdd.
  rewrite norm_step_name by done.
  apply Forall_app. split; [done|]. by repeat constructor.
Qed.

Lemma norm_fold_plain (comps acc : list string) :
  Forall plain acc →
  Forall plain (fold_left (posixpath.norm_step 1) comps acc).
Proof.
  revert acc. induction comps as [|c comps IH]; intros acc Hacc; [done|].
  cbn [fold_left]. by apply IH, norm_step_plain.
Qed.

Lemma walk_fold_inl (w : World) (comps : list string) (e : exn) :
  fold_left (walk_step w) comps (inl e) = inl e.
Proof. induction comps as [|c comps IH]; [done|]. exact IH. Qed.

(** A step of the system that finds its way is the step of [normpath]. *)
Lemma walk_step_lexical (w : World) (cur loc : list string) (c : string) :
  Forall plain cur →
  walk_step w (inr cur) c = inr loc →
  loc = posixpath.norm_step 1 cur c.
Proof.
  intros Hcur. unfold walk_step.
  destruct (String.eqb c "") eqn:He.
  { apply String.eqb_eq in He as ->. by intros [= <-]. }
  destruct (isdir_at w cur); [|by destruct (isfile_at w cur)].
  destruct (String.eqb c ".") eqn:Hd.
  { apply String.eqb_eq in Hd as ->. by intros [= <-]. }
  destruct (String.eqb c "..") eqn:Hdd.
  { apply String.eqb_eq in Hdd as ->. rewrite norm_step_dotdot by done.
    destruct (isdir_at w (removelast cur)); [|done]. by intros [= <-]. }
  apply String.eqb_neq in He, Hd, Hdd. intros [= <-].
  by rewrite norm_step_name.
Qed.

Lemma walk_lexical (w : World) (comps cur loc : list string) :
  Forall plain cur →
  fold_left (walk_step w) comps (inr cur) = inr loc →
  loc = fold_left (posixpath.norm_step 1) comps cur.
Proof.
  revert cur. induction comps as [|c comps IH]; intros cur Hcur.
  { by intros [= <-]. }
  cbn [fold_left].
  destruct (walk_step w (inr cur) c) as [e|next] eqn:Hstep.
  { by rewrite walk_fold_inl. }
  apply walk_step_lexical in Hstep as ->; [|done].
  apply IH. by apply norm_step_plain.
Qed.

(** A step finds the same way in two worlds with the same directories. *)
Lemma isdir_at_dirs (w w' : World) (comps : list string) :
  dirs w = dirs w' → isdir_at w comps = isdir_at w' comps.
Proof. intros Hd. unfold isdir_at. by rewrite Hd. Qed.

Lemma walk_step_dirs (w w' : World) (cur loc : list string) (c : string) :
  dirs w = dirs w' →
  walk_step w (inr cur) c = inr loc →
  walk_step w' (inr cur) c = inr loc.
Proof.
  intros Hd. unfold walk_step.
  rewrite <- !(isdir_at_dirs w w') by done.
  destruct (String.eqb c ""); [done|].
  destruct (isdir_at w cur); [done|]. by destruct (isfile_at w cur).
Qed.

Lemma walk_dirs (w w' : World) (comps cur loc : list string) :
  dirs w = dirs w' →
  fold_left (walk_step w) comps (inr cur) = inr loc →
  fold_left (walk_step w') comps (inr cur) = inr loc.
Proof.
  intros Hd. revert cur. induction comps as [|c comps IH]; intros cur; [done|].
  cbn [fold_left].
  destruct (walk_step w (inr cur) c) as [e|next] eqn:Hstep.
  { by rewrite walk_fold_inl. }
  rewrite (walk_step_dirs w w' cur next c Hd Hstep). apply IH.
Qed.

Lemma walk_error (w : World) (comps : list string) (start : exn + list string)
    (e : exn) :
  (∀ e', start = inl e' → path_error e') →
  fold_left (walk_step w) comps start = inl e → path_error e.
Proof.
  revert start. induction comps as [|c comps IH]; intros start Hstart.
  { cbn. intros ->. by apply Hstart. }
  cbn [fold_left]. apply IH. intros e'. unfold walk_step, path_error.
  destruct start as [e0|cur]; [by intros [= <-]; apply Hstart|].
  repeat case_match; naive_solver.
Qed.

Section Locate.

Context (E : Env).

Lemma cwd_comps_plain : Forall plain (cwd_comps E).
Proof. apply norm_fold_plain. constructor. Qed.

Lemma start_of_plain (path : string) : Forall plain (start_of E path).
Proof.
  unfold start_of. destruct (posixpath.isabs path);
    [constructor|apply cwd_comps_plain].
Qed.

(** Where the system finds a path is where [resolve] says. *)
Lemma locate_resolve (w : World) (path : string) (loc : list string) :
  locate E w path = inr loc → key_of loc = resolve E path.
Proof.
  unfold locate, resolve. destruct (has_nul path); [done|].
  destruct (String.eqb path ""); [done|].
  intros Hwalk. apply walk_lexical in Hwalk as ->; [done|].
  apply start_of_plain.
Qed.

Lemma locate_dirs (w w' : World) (path : string) (loc : list string) :
  dirs w = dirs w' → locate E w path = inr loc → locate E w' path = inr loc.
Proof.
  intros Hd. unfold locate. destruct (has_nul path); [done|].
  destruct (String.eqb path ""); [done|]. by apply walk_dirs.
Qed.

Lemma locate_error (w : World) (path : string) (e : exn) :
  locate E w path = inl e → path_error e.
Proof.
  unfold locate. destruct (has_nul path); [intros [= <-]; by left|].
  destruct (String.eqb path ""); [intros [= <-]; by right; left|].
  by apply walk_error.
Qed.

Lemma locate_nonempty (w : World) (path : string) (loc : list string) :
  locate E w path = inr loc → path ≠ "".
Proof. intros Hloc ->. by vm_compute in Hloc. Qed.

End Locate.

(** ** The monad *)

Lemma bind_inr {A B : Type} (m : M A) (f : A -> M B) (w w' : World) (x : A) :
  m w = (inr x, w') → (m ≫= f) w = f x w'.
Proof. intros Hm. unfold mbind, M_bind. by rewrite Hm. Qed.

Lemma bind_inl {A B : Type} (m : M A) (f : A -> M B) (w w' : World) (e : exn) :
  m w = (inl e, w') → (m ≫= f) w = (inl e, w').
Proof. intros Hm. unfold mbind, M_bind. by rewrite Hm. Qed.

(** A sequence that returns has run both of its parts. *)
Lemma bind_inv_inr {A B : Type} (m : M A) (f : A -> M B) (w w' : World)
    (y : B) :
  (m ≫= f) w = (inr y, w') →
  ∃ x w1, m w = (inr x, w1) ∧ f x w1 = (inr y, w').
Proof.
  unfold mbind, M_bind. destruct (m w) as [[e|x] w1]; [done|]. eauto.
Qed.

(** A sequence that raises has raised in its first part, or has run the
    first and raised in the second. *)
Lemma bind_inv_inl {A B : Type} (m : M A) (f : A -> M B) (w w' : World)
    (e : exn) :
  (m ≫= f) w = (inl e, w') →
  m w = (inl e, w')
  ∨ ∃ x w1, m w = (inr x, w1) ∧ f x w1 = (inl e, w').
Proof.
  unfold mbind, M_bind. destruct (m w) as [[e'|x] w1]; [|by eauto].
  intros [= -> ->]. by left.
Qed.

(** Unfolds the operations of the monad, so that a run computes. *)
Ltac unfold_monad :=
  unfold mbind, M_bind, mret, M_ret, raise, emit, get_world, set_files,
    set_dirs in *.

(** ** [os.makedirs] *)

Lemma rstrip_sep_length (s : string) :
  (String.length (Py.rstrip_sep s) ≤ String.length s)%nat.
Proof.
  induction s as [|c s IH]; [done|]. cbn [Py.rstrip_sep].
  destruct (_ && _); cbn; lia.
Qed.

Lemma rpartition_sep_length (s head tail : string) :
  Py.rpartition_sep s = (head, tail) →
  (String.length head + String.length tail = String.length s)%nat.
Proof.
  revert head tail. induction s as [|c s IH]; intros head tail.
  { by intros [= <- <-]. }
  cbn [Py.rpartition_sep].
  destruct (Py.rpartition_sep s) as [h t]. specialize (IH h t eq_refl).
  destruct (negb (String.eqb h "")) eqn:Hh.
  { intros [= <- <-]. cbn. lia. }
  apply negb_false_iff, String.eqb_eq in Hh as ->. cbn in IH.
  destruct (Ascii.eqb c "/"); intros [= <- <-]; cbn; lia.
Qed.

Lemma split_length (p head tail : string) :
  posixpath.split p = (head, tail) →
  (String.length head + String.length tail ≤ String.length p)%nat.
Proof.
  unfold posixpath.split.
  destruct (Py.rpartition_sep p) as [h t] eqn:Hpart.
  apply rpartition_sep_length in Hpart.
  pose proof (rstrip_sep_length h).
  destruct (_ && _); intros [= <- <-]; lia.
Qed.

Section Makedirs.

Context (E : Env).

(** The body of [os.makedirs] calls itself on a shorter name only. *)
Lemma makedirs_body_ext (rec1 rec2 : string -> M unit) (name : string)
    (w : World) :
  (∀ head w', (String.length head < String.length name)%nat →
              rec1 head w' = rec2 head w') →
  makedirs_body E rec1 name w = makedirs_body E rec2 name w.
Proof.
  intros Hrec. unfold makedirs_body.
  destruct (posixpath.split name) as [head1 tail1] eqn:Hsplit1.
  apply split_length in Hsplit1.
  assert (∃ head tail,
            (if String.eqb tail1 "" then posixpath.split head1
             else (head1, tail1)) = (head, tail)
            ∧ (tail ≠ "" → (String.length head < String.length name)%nat))
    as (head & tail & -> & Hshort).
  { destruct (String.eqb tail1 "") eqn:Htail1.
    - destruct (posixpath.split head1) as [head2 tail2] eqn:Hsplit2.
      apply split_length in Hsplit2. exists head2, tail2. split; [done|].
      intros Hne. destruct tail2; [done|]. cbn in Hsplit2. lia.
    - exists head1, tail1. split; [done|]. intros Hne.
      destruct tail1; [done|]. cbn in Hsplit1. lia. }
  destruct (negb (String.eqb head "")); [|done].
  destruct (String.eqb tail "") eqn:Htail; [done|].
  apply String.eqb_neq in Htail. cbn [negb andb].
  unfold mbind, M_bind, os_path_exists, except_FileExistsError.
  destruct (negb _); [|done].
  by rewrite Hrec by by apply Hshort.
Qed.

Lemma makedirs_depth (n m : nat) (name : string) (w : World) :
  (String.length name ≤ n)%nat → (String.length name ≤ m)%nat →
  makedirs E n name w = makedirs E m name w.
Proof.
  revert m name w. induction n as [|n IH]; intros m name w Hn Hm.
  - destruct name; [|cbn in Hn; lia]. by destruct m.
  - destruct m as [|m].
    { destruct name; [|cbn in Hm; lia]. done. }
    cbn [makedirs]. apply makedirs_body_ext.
    intros head w' Hshort. apply IH; lia.
Qed.

(** [os_makedirs] satisfies the equation of [os.makedirs]: the depth given
    to the recursion is never used up. *)
Lemma os_makedirs_unfold (name : string) (w : World) :
  os_makedirs E name w = makedirs_body E (os_makedirs E) name w.
Proof.
  unfold os_makedirs at 1. destruct name as [|c name]; [done|].
  cbn [String.length makedirs]. apply makedirs_body_ext.
  intros head w' Hshort. unfold os_makedirs. apply makedirs_depth; cbn in *; lia.
Qed.

End Makedirs.

(** ** The calls of the system *)

Section SystemCalls.

Context (E : Env).

(** [open(path, "wb")] that returns has created or emptied the file the
    path names, and nothing else. *)
Lemma open_wb_returns (path f : string) (w w1 : World) :
  open_wb E path w = (inr f, w1) →
  f = resolve E path
  ∧ w1 = mkWorld (<[f := []]> (files w)) (dirs w) (trace w ++ [OpenWb path]).
Proof.
  unfold open_wb. unfold_monad. cbn [files dirs trace].
  destruct (locate E _ path) as [e|loc] eqn:Hloc; [done|].
  apply (locate_dirs E _ w) in Hloc; [|done].
  apply locate_resolve in Hloc.
  destruct (_ || _); [done|]. intros [= <- <-]. by rewrite Hloc.
Qed.

Lemma open_wb_nonempty (path f : string) (w w1 : World) :
  open_wb E path w = (inr f, w1) → path ≠ "".
Proof.
  unfold open_wb. unfold_monad.
  destruct (locate E _ path) as [e|loc] eqn:Hloc; [done|].
  intros _. by eapply locate_nonempty.
Qed.

(** [open(path, "wb")] that raises has changed no file and no directory. *)
Lemma open_wb_raises (path : string) (e : exn) (w w1 : World) :
  open_wb E path w = (inl e, w1) →
  w1 = mkWorld (files w) (dirs w) (trace w ++ [OpenWb path]).
Proof.
  unfold open_wb. unfold_monad. cbn [files dirs trace].
  destruct (locate E _ path) as [e'|loc]; [by intros [= _ <-]|].
  destruct (_ || _); [by intros [= _ <-]|done].
Qed.

Lemma open_wb_opens (path f : string) (w : World) :
  (open_wb E path w).1 = inr f →
  open_wb E path w
  = (inr (resolve E path),
     mkWorld (<[resolve E path := []]> (files w)) (dirs w)
       (trace w ++ [OpenWb path])).
Proof.
  destruct (open_wb E path w) as [[e|f'] w1] eqn:Hopen; [done|].
  intros _. by apply open_wb_returns in Hopen as [-> ->].
Qed.

Lemma file_write_run (f : string) (chunk old : bytes) (w : World) :
  files w !! f = Some old →
  file_write f chunk w
  = (inr tt,
     mkWorld (<[f := old ++ chunk]> (files w)) (dirs w)
       (trace w ++ [FileWrite f chunk])).
Proof.
  intros Hf. unfold file_write. unfold_monad. cbn [files dirs trace].
  by rewrite Hf.
Qed.

(** [os.mkdir] touches no file and takes no directory away. *)
Lemma os_mkdir_makes_directories_only (path : string) :
  makes_directories_only (os_mkdir E path).
Proof.
  intros w. unfold os_mkdir. unfold_monad. cbn [files dirs trace].
  destruct (locate E _ path) as [e|loc]; [done|].
  destruct (_ || _); [done|]. cbn [snd files dirs]. split; [done|set_solver].
Qed.

Lemma makes_directories_only_bind {A B : Type} (m : M A) (k : A -> M B) :
  makes_directories_only m → (∀ x, makes_directories_only (k x)) →
  makes_directories_only (m ≫= k).
Proof.
  intros Hm Hk w. unfold mbind, M_bind.
  destruct (Hm w) as [Hfiles Hdirs]. destruct (m w) as [[e|x] w1]; [done|].
  destruct (Hk x w1) as [Hfiles' Hdirs']. cbn [snd] in *. split.
  - by rewrite Hfiles'.
  - set_solver.
Qed.

Lemma makes_directories_only_except (m : M unit) :
  makes_directories_only m →
  makes_directories_only (except_FileExistsError m).
Proof.
  intros Hm w. unfold except_FileExistsError.
  specialize (Hm w). destruct (m w) as [[[]|[]] w1]; done.
Qed.

Lemma makes_directories_only_exists (path : string) :
  makes_directories_only (os_path_exists E path).
Proof. by intros w. Qed.

Lemma makes_directories_only_ret {A : Type} (x : A) :
  makes_directories_only (mret x).
Proof. by intros w. Qed.

Lemma makedirs_makes_directories_only (depth : nat) (name : string) :
  makes_directories_only (makedirs E depth name).
Proof.
  revert name. induction depth as [|depth IH]; intros name;
    [apply os_mkdir_makes_directories_only|].
  cbn [makedirs]. unfold makedirs_body.
  destruct (posixpath.split name) as [head1 tail1].
  destruct (if String.eqb tail1 "" then posixpath.split head1
            else (head1, tail1)) as [head tail].
  destruct (_ && _); [|apply os_mkdir_makes_directories_only].
  apply makes_directories_only_bind;
    [apply makes_directories_only_exists|intros present].
  destruct (negb present); [|apply os_mkdir_makes_directories_only].
  apply makes_directories_only_bind;
    [apply makes_directories_only_except, IH|intros _].
  destruct (String.eqb tail ".");
    [apply makes_directories_only_ret|apply os_mkdir_makes_directories_only].
Qed.

Lemma os_makedirs_makes_directories_only (name : string) :
  makes_directories_only (os_makedirs E name).
Proof. apply makedirs_makes_directories_only. Qed.

Lemma maybe_mkdir_makes_directories_only (dir_path : string) :
  makes_directories_only (maybe_mkdir E dir_path).
Proof.
  unfold maybe_mkdir.
  apply makes_directories_only_bind;
    [apply makes_directories_only_exists|intros present].
  destruct (negb present);
    [apply os_makedirs_makes_directories_only
    |apply makes_directories_only_ret].
Qed.

End SystemCalls.

(** ** [safe_extract] *)

Section SafeExtract.

Context (E : Env).

Abbreviation within path member :=
  (is_within_directory E path (posixpath.join path (name member))).

Lemma check_members_pass (path : string) (tar : TarFile) (w : World) :
  Forall (fun member => within path member = true) tar →
  check_members E path tar w = (inr tt, w).
Proof.
  induction 1 as [|member rest Hm _ IH]; [done|].
  simpl. by rewrite Hm.
Qed.

Lemma check_members_fail (path : string) (tar : TarFile) (w : World) :
  Exists (fun member => within path member = false) tar →
  check_members E path tar w
  = (inl (Exception "Attempted Path Traversal in Tar File"), w).
Proof.
  induction tar as [|member rest IH]; intros Hex; [by inversion Hex|].
  simpl. destruct (within path member) eqn:Hm; [|done].
  simpl. apply IH. inversion Hex; subst; [congruence|done].
Qed.

(** When every member of the archive passes the check, [safe_extract] is
    [tar.extractall]. *)
Lemma safe_extract_checked (tar : TarFile) (path : string)
    (members : option (list TarInfo)) (numeric_owner : bool) (w : World) :
  Forall (fun member => within path member = true) tar →
  safe_extract E tar path members numeric_owner w
  = extractall E tar path members numeric_owner w.
Proof.
  intros Hpass. unfold safe_extract.
  by rewrite (bind_inr _ _ w w tt) by by apply check_members_pass.
Qed.

(** [safe_extract] decides before it extracts. *)
Lemma safe_extract_checks (tar : TarFile) (path : string)
    (members : option (list TarInfo)) (numeric_owner : bool) (w : World) :
  (Exists (fun member => within path member = false) tar
   ∧ safe_extract E tar path members numeric_owner w
     = (inl (Exception "Attempted Path Traversal in Tar File"), w))
  ∨ (Forall (fun member => within path member = true) tar
     ∧ safe_extract E tar path members numeric_owner w
       = extractall E tar path members numeric_owner w).
Proof.
  destruct (decide (Exists (fun member => within path member = false) tar))
    as [Hbad|Hgood].
  - left. split; [done|]. unfold safe_extract.
    by apply bind_inl, check_members_fail.
  - right.
    assert (Forall (fun member => within path member = true) tar) as Hall.
    { apply not_Exists_Forall in Hgood; [|intros member; apply _].
      eapply Forall_impl; [exact Hgood|].
      intros member Hm. simpl in Hm. by destruct (is_within_directory _ _ _). }
    split; [done|]. by apply safe_extract_checked.
Qed.

(** A member that has been extracted holds its content where its name
    leads from the directory. *)
Lemma extract_member_lands (path : string) (member : TarInfo) (w w' : World) :
  extract_member E path member w = (inr tt, w') →
  files w' !! resolve E (posixpath.join path (name member))
  = Some (data member).
Proof.
  unfold extract_member. intros Hrun.
  apply bind_inv_inr in Hrun as (_ & w1 & _ & Hrun).
  apply bind_inv_inr in Hrun as (f & w2 & Hopen & Hwrite).
  pose proof (open_wb_nonempty E _ _ _ _ Hopen) as Hne.
  apply open_wb_returns in Hopen as [-> ->].
  rewrite (file_write_run _ _ []) in Hwrite
    by (cbn [files]; apply lookup_insert_eq).
  injection Hwrite as <-. cbn [files].
  rewrite <- resolve_rstrip by done. apply lookup_insert_eq.
Qed.

End SafeExtract.

(** C1: when some member of the archive fails the check of
    [is_within_directory] against the destination directory,
    [safe_extract] raises the path-traversal exception and leaves the world
    as it found it: no file is written and no member is extracted, not even
    the members that pass the check. *)
Theorem safe_extract_fails_fast (E : Env) (tar : TarFile) (path : string)
    (members : option (list TarInfo)) (numeric_owner : bool) (w : World)
    (member : TarInfo) :
  member ∈ tar →
  is_within_directory E path (posixpath.join path (name member)) = false →
  safe_extract E tar path members numeric_owner w
  = (inl (Exception "Attempted Path Traversal in Tar File"), w).
Proof.
  intros Hin Hfail. unfold safe_extract.
  apply bind_inl, check_members_fail.
  apply Exists_exists. by exists member.
Qed.

Lemma safe_extract_fails_fast_witness :
  safe_extract sample_env [good_member; evil_member] "models" None false
    empty_world
  = (inl (Exception "Attempted Path Traversal in Tar File"), empty_world).
Proof.
  apply (safe_extract_fails_fast sample_env _ _ _ _ _ evil_member).
  - apply list_elem_of_further, list_elem_of_here.
  - vm_compute. reflexivity.
Defined.

(** C2: the check is a plain string-prefix comparison.  With a destination
    directory whose absolute path is [/a/b], [is_within_directory] answers
    [true] for a target whose absolute path is [/a/bc/evil], and
    [safe_extract] does not refuse a member that leads there: it hands it
    to [tar.extractall], and once the member is extracted its content is
    in the sibling directory. *)
Theorem sibling_directory_accepted (E : Env) (path : string) :
  posixpath.abspath (getcwd E) path = "/a/b" →
  (∀ target,
     posixpath.abspath (getcwd E) target = "/a/bc/evil" →
     is_within_directory E path target = true)
  ∧ (∀ member numeric_owner w,
       posixpath.abspath (getcwd E) (posixpath.join path (name member))
       = "/a/bc/evil" →
       safe_extract E [member] path None numeric_owner w
       = extractall E [member] path None numeric_owner w
       ∧ ∀ w',
           safe_extract E [member] path None numeric_owner w = (inr tt, w') →
           files w' !! "/a/bc/evil" = Some (data member)).
Proof.
  intros Hdir.
  assert (∀ target,
     posixpath.abspath (getcwd E) target = "/a/bc/evil" →
     is_within_directory E path target = true) as Hcheck.
  { intros target Htarget.
    rewrite is_within_directory_prefix, Hdir, Htarget. reflexivity. }
  split; [exact Hcheck|].
  intros member numeric_owner w Hmember.
  assert (safe_extract E [member] path None numeric_owner w
          = extractall E [member] path None numeric_owner w) as Hsame.
  { apply safe_extract_checked. repeat constructor. by apply Hcheck. }
  split; [exact Hsame|].
  intros w' Hrun. rewrite Hsame in Hrun.
  unfold extractall in Hrun. cbn [default extract_each] in Hrun.
  apply bind_inv_inr in Hrun as ([] & w1 & Hmem & [= <-]).
  apply extract_member_lands in Hmem.
  destruct (abspath_rooted E _ _ _ Hmember) as [Habs Hroot]; [done|].
  by rewrite resolve_abspath, Hmember in Hmem.
Qed.

Lemma sibling_directory_accepted_witness :
  is_within_directory sample_env "/a/b" "/a/bc/evil" = true
  ∧ files (safe_extract sample_env [evil_member] "/a/b" None false
             empty_world).2
    !! "/a/bc/evil" = Some (data evil_member).
Proof.
  destruct (sibling_directory_accepted sample_env "/a/b") as [H1 H2];
    [reflexivity|].
  split.
  - apply H1. reflexivity.
  - destruct (H2 evil_member false empty_world eq_refl) as [_ Hlands].
    apply Hlands. vm_compute. reflexivity.
Defined.

(** C3, as the code has it: a member whose destination path lies strictly
    inside the destination directory passes [is_within_directory]; when
    every member of the archive does, [safe_extract] raises no
    path-traversal exception and does what [tar.extractall] does, whose
    own failures it lets through. *)
Theorem safe_extract_inside_not_refused (E : Env) (tar : TarFile)
    (path : string) (numeric_owner : bool) (w : World) :
  posixpath.isabs (getcwd E) = true →
  Forall (fun member =>
            strictly_inside (getcwd E) path
              (posixpath.join path (name member))) tar →
  Forall (fun member =>
            is_within_directory E path (posixpath.join path (name member))
            = true) tar
  ∧ check_members E path tar w = (inr tt, w)
  ∧ safe_extract E tar path None numeric_owner w
    = extractall E tar path None numeric_owner w.
Proof.
  intros Hcwd Hinside.
  assert (Forall (fun member =>
            is_within_directory E path (posixpath.join path (name member))
            = true) tar) as Hpass.
  { eapply Forall_impl; [exact Hinside|].
    intros member Hm. rewrite is_within_directory_prefix.
    by apply strictly_inside_prefix. }
  split_and!.
  - exact Hpass.
  - by apply check_members_pass.
  - by apply safe_extract_checked.
Qed.

Lemma safe_extract_inside_not_refused_witness :
  safe_extract sample_env [good_member] "models" None false home_world
  = extractall sample_env [good_member] "models" None false home_world.
Proof.
  apply (safe_extract_inside_not_refused sample_env [good_member] "models"
           false home_world).
  - reflexivity.
  - repeat constructor. by exists "saved", ["model.pb"].
Defined.

(** C3, as stated, fails: both members of this archive lie strictly inside
    the models directory, yet the extraction does not succeed.  The first
    member is a regular file named [saved]; the second is to go below it,
    and [tar.extractall] raises [NotADirectoryError] with the first member
    on disk and the second not extracted. *)
Lemma safe_extract_inside_can_fail :
  Forall (fun member =>
            strictly_inside (getcwd sample_env) "models"
              (posixpath.join "models" (name member)))
         [saved_member; good_member]
  ∧ (safe_extract sample_env [saved_member; good_member] "models" None false
       models_world).1 = inl NotADirectoryError
  ∧ files (safe_extract sample_env [saved_member; good_member] "models" None
             false models_world).2
    !! "/home/user/models/saved" = Some (data saved_member)
  ∧ files (safe_extract sample_env [saved_member; good_member] "models" None
             false models_world).2
    !! "/home/user/models/saved/model.pb" = None.
Proof.
  split_and!.
  - apply Forall_cons_2; [split; [reflexivity|by exists "saved", []]|].
    apply Forall_cons_2; [|apply Forall_nil_2].
    split; [reflexivity|by exists "saved", ["model.pb"]].
  - vm_compute. reflexivity.
  - vm_compute. reflexivity.
  - vm_compute. reflexivity.
Qed.

(** C8: for a member whose name is an absolute path, [os.path.join] drops
    the destination directory, so the check compares the member's own
    normalised path with the destination directory; when the directory's
    absolute path is not the common prefix of the two, [safe_extract]
    raises the path-traversal exception and the world is unchanged: the
    member is not extracted. *)
Theorem safe_extract_absolute_member (E : Env) (tar : TarFile)
    (path : string) (members : option (list TarInfo)) (numeric_owner : bool)
    (w : World) (member : TarInfo) :
  member ∈ tar →
  posixpath.isabs (name member) = true →
  posixpath.commonprefix
    [posixpath.abspath (getcwd E) path; posixpath.normpath (name member)]
  ≠ posixpath.abspath (getcwd E) path →
  posixpath.join path (name member) = name member
  ∧ posixpath.abspath (getcwd E) (posixpath.join path (name member))
    = posixpath.normpath (name member)
  ∧ safe_extract E tar path members numeric_owner w
    = (inl (Exception "Attempted Path Traversal in Tar File"), w).
Proof.
  intros Hin Habs Hprefix.
  assert (posixpath.join path (name member) = name member) as Hjoin.
  { unfold posixpath.join. fold (posixpath.isabs (name member)).
    by rewrite Habs. }
  assert (posixpath.abspath (getcwd E) (name member)
          = posixpath.normpath (name member)) as Hnorm.
  { unfold posixpath.abspath. by rewrite Habs. }
  split_and!; [done|by rewrite Hjoin|].
  unfold safe_extract. apply bind_inl, check_members_fail.
  apply Exists_exists. exists member. split; [done|].
  unfold is_within_directory. rewrite Hjoin, Hnorm.
  by apply String.eqb_neq.
Qed.

Lemma safe_extract_absolute_member_witness :
  safe_extract sample_env [good_member; absolute_member] "models" None false
    empty_world
  = (inl (Exception "Attempted Path Traversal in Tar File"), empty_world).
Proof.
  apply (safe_extract_absolute_member sample_env
           [good_member; absolute_member] "models" None false empty_world
           absolute_member).
  - apply list_elem_of_further, list_elem_of_here.
  - reflexivity.
  - vm_compute. discriminate.
Defined.

(** ** [download_file] *)

Lemma writes_of_app (tr1 tr2 : list event) :
  writes_of (tr1 ++ tr2) = writes_of tr1 ++ writes_of tr2.
Proof. apply omap_app. Qed.

Lemma writes_of_stream_events (f : string) (total_length : Z)
    (chunks : list bytes) (dl : Z) :
  writes_of (stream_events f total_length chunks dl) = chunks.
Proof.
  revert dl. induction chunks as [|data rest IH]; intros dl; [done|].
  cbn [stream_events]. unfold writes_of in *. cbn. by rewrite IH.
Qed.

Section Download.

Context (E : Env).

Lemma download_chunks_spec (f : string) (total_length : Z)
    (chunks : list bytes) (dl : Z) (w : World) (old : bytes) :
  total_length ≠ 0%Z →
  files w !! f = Some old →
  download_chunks f total_length chunks dl w
  = (inr tt,
     mkWorld (<[f := old ++ concat chunks]> (files w)) (dirs w)
       (trace w ++ stream_events f total_length chunks dl)).
Proof.
  intros Hn. revert dl w old.
  induction chunks as [|data rest IH]; intros dl w old Hf.
  - simpl. rewrite !app_nil_r, insert_id by done. by destruct w.
  - cbn [download_chunks stream_events concat].
    apply Z.eqb_neq in Hn as Hn'. rewrite Hn'.
    unfold file_write, stdout_write, stdout_flush. unfold_monad.
    cbn [files dirs trace]. rewrite Hf. cbn [default].
    erewrite IH; [|apply lookup_insert_eq].
    cbn [files dirs trace]. rewrite insert_insert_eq.
    by rewrite <- !app_assoc.
Qed.

(** What [download_file] does, once the destination is open, when the body
    is written in one piece. *)
Lemma download_file_buffered (url dest : string) (silent : bool) (w : World)
    (response : Response) :
  (open_wb E dest w).1 = inr (resolve E dest) →
  network E url = Some response →
  content_length response = None ∨ silent = true →
  download_file E url dest silent w
  = (inr tt,
     mkWorld (<[resolve E dest := content response]> (files w)) (dirs w)
       (trace w ++ [OpenWb dest]
        ++ (if silent then []
            else [Stdout (Str (("Downloading " +:+ dest) +:+ newline))])
        ++ [HttpGet url; FileWrite (resolve E dest) (content response)])).
Proof.
  intros Hopen Hnet Hcase. unfold download_file.
  erewrite bind_inr; [|by eapply open_wb_opens].
  cbv beta. unfold maybe_print, print, requests_get. rewrite Hnet.
  unfold file_write. unfold_monad.
  destruct silent; cbn [negb files dirs trace];
    destruct (content_length response) as [s|];
    try (by destruct Hcase);
    cbn [files dirs trace]; rewrite lookup_insert_eq, insert_insert_eq;
    by rewrite <- ?app_assoc.
Qed.

(** What [download_file] does when it streams the body. *)
Lemma download_file_streamed (url dest s : string) (n : Z) (w : World)
    (response : Response) :
  (open_wb E dest w).1 = inr (resolve E dest) →
  network E url = Some response →
  content_length response = Some s →
  PyInt.int (int_max_str_digits E) s = Some n →
  n ≠ 0%Z →
  download_file E url dest false w
  = (inr tt,
     mkWorld
       (<[resolve E dest := concat (iter_content response 4096%N)]> (files w))
       (dirs w)
       (trace w
        ++ [OpenWb dest; Stdout (Str (("Downloading " +:+ dest) +:+ newline));
            HttpGet url]
        ++ stream_events (resolve E dest) n (iter_content response 4096%N) 0
        ++ [Stdout (Str newline); StdoutFlush])).
Proof.
  intros Hopen Hnet Hlen Hint Hn. unfold download_file.
  erewrite bind_inr; [|by eapply open_wb_opens].
  cbv beta. unfold maybe_print, print, requests_get.
  rewrite Hnet. unfold stdout_write, stdout_flush. unfold_monad.
  cbn [negb files dirs trace]. rewrite Hlen, Hint.
  erewrite download_chunks_spec; [|done|apply lookup_insert_eq].
  cbn [files dirs trace app]. rewrite insert_insert_eq.
  by rewrite <- !app_assoc.
Qed.

(** When [int] refuses the header, nothing of the body is written. *)
Lemma download_file_bad_length (url dest s : string) (w : World)
    (response : Response) :
  (open_wb E dest w).1 = inr (resolve E dest) →
  network E url = Some response →
  content_length response = Some s →
  PyInt.int (int_max_str_digits E) s = None →
  download_file E url dest false w
  = (inl ValueError,
     mkWorld (<[resolve E dest := []]> (files w)) (dirs w)
       (trace w
        ++ [OpenWb dest; Stdout (Str (("Downloading " +:+ dest) +:+ newline));
            HttpGet url])).
Proof.
  intros Hopen Hnet Hlen Hint. unfold download_file.
  erewrite bind_inr; [|by eapply open_wb_opens].
  cbv beta. unfold maybe_print, print, requests_get.
  rewrite Hnet. unfold_monad. cbn [negb files dirs trace].
  rewrite Hlen, Hint.
  by rewrite <- !app_assoc.
Qed.

(** When the destination cannot be opened, [download_file] raises the
    error of [open] before anything else: no request is made and nothing
    is printed. *)
Lemma download_file_not_opened (url dest : string) (silent : bool)
    (w : World) (e : exn) :
  (open_wb E dest w).1 = inl e →
  download_file E url dest silent w
  = (inl e, mkWorld (files w) (dirs w) (trace w ++ [OpenWb dest])).
Proof.
  intros Hopen. unfold download_file.
  destruct (open_wb E dest w) as [[e'|f] w1] eqn:Hrun; [|done].
  cbn in Hopen. injection Hopen as ->.
  pose proof (open_wb_raises E _ _ _ _ Hrun) as ->.
  by apply bind_inl.
Qed.

(** With a header that [int] reads as a number other than zero, and a body
    that is the chunks put together, the file holds the same bytes whether
    [silent] is set or not. *)
Lemma download_file_silent_same_file (url dest s : string) (n : Z)
    (w : World) (response : Response) :
  (open_wb E dest w).1 = inr (resolve E dest) →
  network E url = Some response →
  content_length response = Some s →
  PyInt.int (int_max_str_digits E) s = Some n →
  n ≠ 0%Z →
  content response = concat (iter_content response 4096%N) →
  files (download_file E url dest true w).2
  = files (download_file E url dest false w).2.
Proof.
  intros Hopen Hnet Hlen Hint Hn Hbody.
  rewrite (download_file_buffered url dest true w response Hopen Hnet)
    by by right.
  rewrite (download_file_streamed url dest s n w response) by done.
  cbn [snd files]. by rewrite Hbody.
Qed.

End Download.

(** C7, as the code has it: once the destination is open, the body is
    streamed chunk by chunk, each chunk written as it arrives and followed
    by the progress line of the byte counter, when the response carries a
    [content-length] header that [int] reads as a number other than zero
    and [silent] is not set; it is written in one piece when the header is
    absent or [silent] is set. *)
Theorem download_file_streams_unless_silent (E : Env) (url dest : string)
    (silent : bool) (w : World) (response : Response) :
  (open_wb E dest w).1 = inr (resolve E dest) →
  network E url = Some response →
  (∀ s n,
     content_length response = Some s → silent = false →
     PyInt.int (int_max_str_digits E) s = Some n → n ≠ 0%Z →
     (download_file E url dest silent w).1 = inr tt
     ∧ trace (download_file E url dest silent w).2
       = trace w
         ++ [OpenWb dest;
             Stdout (Str (("Downloading " +:+ dest) +:+ newline));
             HttpGet url]
         ++ stream_events (resolve E dest) n (iter_content response 4096%N) 0
         ++ [Stdout (Str newline); StdoutFlush]
     ∧ writes_of (trace (download_file E url dest silent w).2)
       = writes_of (trace w) ++ iter_content response 4096%N)
  ∧ (content_length response = None ∨ silent = true →
     (download_file E url dest silent w).1 = inr tt
     ∧ trace (download_file E url dest silent w).2
       = trace w ++ [OpenWb dest]
         ++ (if silent then []
             else [Stdout (Str (("Downloading " +:+ dest) +:+ newline))])
         ++ [HttpGet url; FileWrite (resolve E dest) (content response)]
     ∧ writes_of (trace (download_file E url dest silent w).2)
       = writes_of (trace w) ++ [content response]).
Proof.
  intros Hopen Hnet. split.
  - intros s n Hlen -> Hint Hn.
    rewrite (download_file_streamed E url dest s n w response) by done.
    cbn [fst snd trace]. split_and!; [done..|].
    rewrite !writes_of_app, writes_of_stream_events. cbn. by rewrite app_nil_r.
  - intros Hcase.
    rewrite (download_file_buffered E url dest silent w response) by done.
    cbn [fst snd trace]. split_and!; [done..|].
    rewrite !writes_of_app. by destruct silent.
Qed.

Lemma download_file_streams_unless_silent_witness :
  writes_of
    (trace (download_file (serving_env sample_response) "http://host/a.tar.gz"
              "a.tar.gz" false home_world).2)
  = writes_of (trace home_world) ++ sample_chunks 4096%N.
Proof.
  destruct (download_file_streams_unless_silent (serving_env sample_response)
              "http://host/a.tar.gz" "a.tar.gz" false home_world
              sample_response eq_refl eq_refl) as [Hstream _].
  destruct (Hstream "5" 5%Z eq_refl eq_refl eq_refl) as (_ & _ & Hwrites).
  - discriminate.
  - exact Hwrites.
Defined.

(** C7, as stated, fails: with [silent] set, a response that carries a
    [content-length] header is not streamed.  Its body is written by a
    single [f.write], and no progress line is printed. *)
Lemma download_file_silent_not_streamed :
  content_length sample_response = Some "5"
  ∧ trace (download_file (serving_env sample_response) "http://host/a.tar.gz"
             "a.tar.gz" true home_world).2
    = [OpenWb "a.tar.gz"; HttpGet "http://host/a.tar.gz";
       FileWrite "/home/user/a.tar.gz" [x50; x4b; x03; x04; x0a]]
  ∧ iter_content sample_response 4096%N = [[x50; x4b; x03]; [x04; x0a]]
  ∧ writes_of
      (trace (download_file (serving_env sample_response)
                "http://host/a.tar.gz" "a.tar.gz" true home_world).2)
    ≠ iter_content sample_response 4096%N.
Proof.
  rewrite (download_file_buffered (serving_env sample_response)
             "http://host/a.tar.gz" "a.tar.gz" true home_world
             sample_response eq_refl eq_refl) by by right.
  split_and!; [reflexivity..|]. vm_compute. discriminate.
Qed.

(** C10 at a response whose [content-length] header is not a plain number
    (the value of a repeated header, joined): the body is the chunks put
    together, yet with [silent] unset [int] raises [ValueError] and the
    file stays empty, while with [silent] set the file holds the body. *)
Theorem download_file_silent_changes_file :
  content repeated_length_response
  = concat (iter_content repeated_length_response 4096%N)
  ∧ content_length repeated_length_response = Some "5, 5"
  ∧ (download_file (serving_env repeated_length_response)
       "http://host/a.tar.gz" "a.tar.gz" false home_world).1
    = inl ValueError
  ∧ files (download_file (serving_env repeated_length_response)
             "http://host/a.tar.gz" "a.tar.gz" false home_world).2
    !! "/home/user/a.tar.gz" = Some []
  ∧ files (download_file (serving_env repeated_length_response)
             "http://host/a.tar.gz" "a.tar.gz" true home_world).2
    !! "/home/user/a.tar.gz" = Some [x50; x4b; x03; x04; x0a].
Proof.
  rewrite (download_file_bad_length (serving_env repeated_length_response)
             "http://host/a.tar.gz" "a.tar.gz" "5, 5" home_world
             repeated_length_response) by reflexivity.
  rewrite (download_file_buffered (serving_env repeated_length_response)
             "http://host/a.tar.gz" "a.tar.gz" true home_world
             repeated_length_response eq_refl eq_refl) by by right.
  cbn [fst snd files].
  split_and!; [reflexivity..| |]; apply lookup_insert_eq.
Qed.

(** ** What is never raised *)

Section Never.

Context (E : Env) (bad : exn -> Prop).

(** The exceptions watched for are among the two the file raises itself:
    what the interpreter and the libraries raise is not one of them. *)
Context (bad_own : ∀ e, bad e → own e).

Lemma never_ret {A : Type} (x : A) : never_raises bad (mret x).
Proof. by intros w e _. Qed.

Lemma never_bind {A B : Type} (m : M A) (f : A -> M B) :
  never_raises bad m →
  (∀ x, never_raises bad (f x)) →
  never_raises bad (m ≫= f).
Proof.
  intros Hm Hf w e He. unfold mbind, M_bind.
  destruct (m w) as [[e'|x] w'] eqn:Hrun.
  - specialize (Hm w e He). rewrite Hrun in Hm. simpl in *. congruence.
  - by apply Hf.
Qed.

Lemma never_emit (e : event) : never_raises bad (emit e).
Proof. by intros w e' _. Qed.

Lemma never_get_world : never_raises bad get_world.
Proof. by intros w e _. Qed.

Lemma never_set_files (fs : gmap string bytes) :
  never_raises bad (set_files fs).
Proof. by intros w e _. Qed.

Lemma never_set_dirs (ds : gset string) : never_raises bad (set_dirs ds).
Proof. by intros w e _. Qed.

Lemma never_raise {A : Type} (e : exn) :
  ¬ bad e → never_raises bad (@raise A e).
Proof. intros He w e' He'. unfold raise. simpl. intros [= <-]. done. Qed.

Lemma never_foreign {A : Type} (e : exn) :
  ¬ own e → never_raises bad (@raise A e).
Proof. intros He. apply never_raise. intros Hbad. by apply He, bad_own. Qed.

Lemma never_except (m : M unit) :
  never_raises bad m → never_raises bad (except_FileExistsError m).
Proof.
  intros Hm w e He. unfold except_FileExistsError.
  specialize (Hm w e He). by destruct (m w) as [[[]|[]] w1].
Qed.

Lemma never_exists (path : string) : never_raises bad (os_path_exists E path).
Proof. by intros w e _. Qed.

(** A call of the system that cannot follow its path raises an error of
    the system. *)
Lemma never_on_path {A : Type} (w : World) (path : string)
    (k : list string -> M A) :
  (∀ loc, never_raises bad (k loc)) →
  never_raises bad
    match locate E w path with
    | inl e => raise e
    | inr loc => k loc
    end.
Proof.
  intros Hk. destruct (locate E w path) as [e|loc] eqn:Hloc; [|apply Hk].
  apply never_foreign.
  apply locate_error in Hloc. destruct Hloc as [->|[->| ->]]; exact id.
Qed.

(** Splits a computation along its binds and branches, leaving the calls. *)
Ltac never_step :=
  repeat first
    [ apply never_bind; [|intros ?]
    | apply never_on_path; intros ?
    | apply never_foreign; exact id
    | apply never_ret | apply never_emit | apply never_get_world
    | apply never_set_files | apply never_set_dirs | apply never_exists
    | match goal with
      | |- never_raises _ (match ?x with _ => _ end) => destruct x
      | |- never_raises _ (if ?b then _ else _) => destruct b
      end ].

Lemma never_print (s : string) : never_raises bad (print s).
Proof. unfold print. never_step. Qed.

Lemma never_maybe_print (b : bool) (s : string) :
  never_raises bad (maybe_print b s).
Proof. unfold maybe_print. destruct b; [apply never_print|never_step]. Qed.

Lemma never_os_mkdir (path : string) : never_raises bad (os_mkdir E path).
Proof. unfold os_mkdir. never_step. Qed.

Lemma never_makedirs (depth : nat) (name : string) :
  never_raises bad (makedirs E depth name).
Proof.
  revert name. induction depth as [|depth IH]; intros name;
    [apply never_os_mkdir|].
  cbn [makedirs]. unfold makedirs_body.
  destruct (posixpath.split name) as [head1 tail1].
  destruct (if String.eqb tail1 "" then posixpath.split head1
            else (head1, tail1)) as [head tail].
  destruct (_ && _); [|apply never_os_mkdir].
  apply never_bind; [apply never_exists|intros present].
  destruct (negb present); [|apply never_os_mkdir].
  apply never_bind; [apply never_except, IH|intros _].
  destruct (String.eqb tail "."); [apply never_ret|apply never_os_mkdir].
Qed.

Lemma never_maybe_mkdir (dir_path : string) :
  never_raises bad (maybe_mkdir E dir_path).
Proof.
  unfold maybe_mkdir, os_makedirs.
  apply never_bind; [apply never_exists|intros present].
  destruct (negb present); [apply never_makedirs|apply never_ret].
Qed.

Lemma never_open_wb (path : string) : never_raises bad (open_wb E path).
Proof. unfold open_wb. never_step. Qed.

Lemma never_file_write (f : string) (chunk : bytes) :
  never_raises bad (file_write f chunk).
Proof. unfold file_write. never_step. Qed.

Lemma never_tarfile_open (path : string) :
  never_raises bad (tarfile_open E path).
Proof. unfold tarfile_open. never_step. Qed.

Lemma never_os_remove (path : string) : never_raises bad (os_remove E path).
Proof. unfold os_remove. never_step. Qed.

Lemma never_download_chunks (f : string) (total_length : Z)
    (chunks : list bytes) (dl : Z) :
  never_raises bad (download_chunks f total_length chunks dl).
Proof.
  revert dl. induction chunks as [|data rest IH]; intros dl; simpl.
  - never_step.
  - apply never_bind; [apply never_file_write|intros _].
    apply never_bind; [unfold stdout_write; never_step|intros _].
    apply never_bind; [unfold stdout_flush; never_step|intros _].
    apply IH.
Qed.

Lemma never_download_file (file_url file_dest_path : string) (silent : bool) :
  never_raises bad (download_file E file_url file_dest_path silent).
Proof.
  unfold download_file.
  apply never_bind; [apply never_open_wb|intros f].
  apply never_bind; [apply never_maybe_print|intros _].
  apply never_bind; [unfold requests_get; never_step|intros response].
  destruct (content_length response) as [s|]; [|apply never_file_write].
  destruct silent; [apply never_file_write|].
  destruct (PyInt.int _ s) as [n|]; [|never_step].
  apply never_bind; [apply never_download_chunks|intros _].
  unfold stdout_write, stdout_flush. never_step.
Qed.

Lemma never_extract_member (path : string) (member : TarInfo) :
  never_raises bad (extract_member E path member).
Proof.
  unfold extract_member.
  apply never_bind.
  { destruct (negb _); [|apply never_ret].
    apply never_bind; [apply never_exists|intros present].
    destruct (negb present); [apply never_makedirs|apply never_ret]. }
  intros _. apply never_bind; [apply never_open_wb|intros f].
  apply never_file_write.
Qed.

Lemma never_extract_each (path : string) (members : list TarInfo) :
  never_raises bad (extract_each E path members).
Proof.
  induction members as [|member rest IH]; simpl; [apply never_ret|].
  apply never_bind; [apply never_extract_member|by intros _].
Qed.

(** Whatever the graph libraries raise is not an exception of the file. *)
Lemma never_model_to_uff (model_path output_uff_path : string)
    (silent : bool) :
  never_raises bad (model_to_uff E model_path output_uff_path silent).
Proof.
  unfold model_to_uff.
  apply never_bind.
  - intros w e He. unfold DynamicGraph.
    destruct (graph_load E model_path w) as [[g|] w']; [done|].
    cbn. intros [= <-]. by apply bad_own in He.
  - intros g w e He. unfold uff_from_tensorflow.
    destruct (uff_convert E _ _ _ _ w) as [[] w']; [done|].
    cbn. intros [= <-]. by apply bad_own in He.
Qed.

End Never.

(** ** [prepare_ssd_model] *)

Lemma is_NotImplementedError_own (e : exn) : is_NotImplementedError e → own e.
Proof. by intros [msg ->]. Qed.

Lemma is_Exception_own (e : exn) : is_Exception e → own e.
Proof. by intros [msg ->]. Qed.

Section PrepareModel.

Context (E : Env).

Lemma never_check_members (path : string) (tar : TarFile) :
  never_raises is_NotImplementedError (check_members E path tar).
Proof.
  induction tar as [|member rest IH]; simpl; [apply never_ret|].
  destruct (negb _); [|done].
  apply never_raise. by intros [msg [=]].
Qed.

Lemma never_safe_extract (tar : TarFile) (path : string)
    (members : option (list TarInfo)) (numeric_owner : bool) :
  never_raises is_NotImplementedError
    (safe_extract E tar path members numeric_owner).
Proof.
  unfold safe_extract, extractall.
  apply never_bind; [apply never_check_members|intros _].
  apply never_extract_each, is_NotImplementedError_own.
Qed.

Lemma never_download_model (model_name : string) (silent : bool) :
  never_raises is_NotImplementedError (download_model E model_name silent).
Proof.
  pose proof is_NotImplementedError_own as Hown.
  unfold download_model.
  apply never_bind; [by apply never_maybe_print|intros _].
  apply never_bind; [by apply never_maybe_mkdir|intros _].
  apply never_bind; [by apply never_download_file|intros _].
  apply never_bind; [by apply never_maybe_print|intros _].
  apply never_bind; [by apply never_tarfile_open|intros tar].
  apply never_bind; [apply never_safe_extract|intros _].
  apply never_bind; [by apply never_maybe_print|intros _].
  apply never_bind; [by apply never_os_remove|intros _].
  by apply never_maybe_print.
Qed.

End PrepareModel.

(** C6: for a model name other than the supported one, [prepare_ssd_model]
    raises [NotImplementedError] and the world is as it was: no directory
    is made, nothing is requested from the network, nothing is written. *)
Theorem prepare_ssd_model_unsupported (E : Env) (model_name : string)
    (silent : bool) (w : World) :
  model_name ≠ "ssd_inception_v2_coco_2017_11_17" →
  prepare_ssd_model E model_name silent w
  = (inl (NotImplementedError
            ("Model " +:+ model_name +:+ " is not supported yet")), w).
Proof.
  intros Hname. unfold prepare_ssd_model.
  apply String.eqb_neq in Hname. by rewrite Hname.
Qed.

Lemma prepare_ssd_model_unsupported_witness :
  prepare_ssd_model sample_env "ssd_mobilenet_v1_coco" false empty_world
  = (inl (NotImplementedError
            "Model ssd_mobilenet_v1_coco is not supported yet"), empty_world).
Proof.
  apply (prepare_ssd_model_unsupported sample_env "ssd_mobilenet_v1_coco"
           false empty_world).
  discriminate.
Defined.

(** C9: with the default model name, [prepare_ssd_model] goes past its
    guard: it is the download followed by the conversion, and it never
    ends in [NotImplementedError]. *)
Theorem prepare_ssd_model_default_supported (E : Env) (silent : bool)
    (w : World) :
  prepare_ssd_model E default_model_name silent w
  = (download_model E default_model_name silent;;
     model_to_uff E (get_model_pb_path E default_model_name)
       (get_model_uff_path E default_model_name) silent) w
  ∧ ∀ msg,
      (prepare_ssd_model E default_model_name silent w).1
      ≠ inl (NotImplementedError msg).
Proof.
  assert (prepare_ssd_model E default_model_name silent
          = (download_model E default_model_name silent;;
             model_to_uff E (get_model_pb_path E default_model_name)
               (get_model_uff_path E default_model_name) silent)) as Hrun
    by reflexivity.
  split; [by rewrite Hrun|].
  intros msg. rewrite Hrun.
  apply (never_bind is_NotImplementedError);
    [apply never_download_model| |by exists msg].
  intros _. apply never_model_to_uff, is_NotImplementedError_own.
Qed.

(** ** Collapsing a namespace *)

Section Collapse.

Context (namespace plugin_name : string) (plugin : gs.Node).

Abbreviation collapse g :=
  (gs.collapse_namespace g (namespace, (plugin_name, plugin))).

Abbreviation in_ns n := (gs.in_namespace namespace n).

(** An entry that matches no node is a no-op; otherwise some node is in the
    namespace. *)
Lemma collapse_cases (g : gs.DynamicGraph) :
  (collapse g = g ∧ ∀ k nd, g !! k = Some nd → in_ns k = false)
  ∨ (∃ k nd, g !! k = Some nd ∧ in_ns k = true)
    ∧ collapse g
      = <[plugin_name :=
            gs.mkNode (gs.op plugin) (gs.attr plugin)
              (from_option gs.input []
                 ((gs.rewire namespace plugin_name <$>
                   filter (fun kv : string * gs.Node => in_ns kv.1 = false) g)
                  !! plugin_name)
               ++ (map_to_list
                     (filter (fun kv : string * gs.Node => in_ns kv.1 = true) g)
                   ≫= fun kv => filter (fun i => in_ns i = false)
                                        (gs.input kv.2)))]>
          (gs.rewire namespace plugin_name <$>
           filter (fun kv : string * gs.Node => in_ns kv.1 = false) g).
Proof.
  unfold gs.collapse_namespace. cbn [fst snd].
  destruct (decide (filter _ g = ∅)) as [Hempty|Hsome].
  - left. split; [done|]. intros k nd Hk.
    destruct (in_ns k) eqn:Hin; [|done].
    by destruct (map_filter_empty_not_lookup _ g k nd Hempty Hin).
  - right. split; [|done].
    apply map_choose in Hsome as (k & nd & Hk).
    apply map_lookup_filter_Some in Hk as [Hk Hin]. eauto.
Qed.

(** A node outside the namespace, not named as the plugin, stays, with its
    references renamed. *)
Lemma collapse_lookup_outside (g : gs.DynamicGraph) (k : string) :
  in_ns k = false → k ≠ plugin_name →
  (∃ k0 nd0, g !! k0 = Some nd0 ∧ in_ns k0 = true) →
  collapse g !! k = gs.rewire namespace plugin_name <$> g !! k.
Proof.
  intros Hk Hne Hsome.
  destruct (collapse_cases g) as [[_ Hnone]|[_ ->]].
  { destruct Hsome as (k0 & nd0 & Hk0 & Hin). apply Hnone in Hk0. congruence. }
  rewrite lookup_insert_ne by done. rewrite lookup_fmap. f_equal.
  destruct (g !! k) as [nd|] eqn:Hg.
  - by apply map_lookup_filter_Some.
  - apply map_lookup_filter_None. left. done.
Qed.

(** Keys of the collapsed graph: the plugin, or a key that was there; and
    once something was collapsed, no key of the namespace other than the
    plugin's is left. *)
Lemma collapse_keys (g : gs.DynamicGraph) (k : string) (nd : gs.Node) :
  collapse g !! k = Some nd →
  k = plugin_name ∨ is_Some (g !! k).
Proof.
  destruct (collapse_cases g) as [[-> _]|[_ ->]]; [eauto|].
  intros Hk. destruct (decide (k = plugin_name)) as [|Hne]; [by left|right].
  rewrite lookup_insert_ne, lookup_fmap in Hk by done.
  destruct (filter _ g !! k) as [nd0|] eqn:Hf; [|done].
  apply map_lookup_filter_Some in Hf as [? _]. eauto.
Qed.

Lemma collapse_removes (g : gs.DynamicGraph) (k : string) :
  (∃ k0 nd0, g !! k0 = Some nd0 ∧ in_ns k0 = true) →
  in_ns k = true → k ≠ plugin_name →
  collapse g !! k = None.
Proof.
  intros Hsome Hk Hne.
  destruct (collapse_cases g) as [[_ Hnone]|[_ ->]].
  { destruct Hsome as (k0 & nd0 & Hk0 & Hin). apply Hnone in Hk0. congruence. }
  rewrite lookup_insert_ne, lookup_fmap by done.
  rewrite (proj2 (map_lookup_filter_None _ _ _)); [done|].
  right. intros nd _. simpl. congruence.
Qed.

(** The plugin node is in the graph once something was collapsed, with the
    operation and the attributes it was created with. *)
Lemma collapse_plugin (g : gs.DynamicGraph) :
  (∃ k0 nd0, g !! k0 = Some nd0 ∧ in_ns k0 = true) →
  ∃ nd, collapse g !! plugin_name = Some nd
        ∧ gs.op nd = gs.op plugin ∧ gs.attr nd = gs.attr plugin.
Proof.
  intros Hsome.
  destruct (collapse_cases g) as [[_ Hnone]|[_ ->]].
  { destruct Hsome as (k0 & nd0 & Hk0 & Hin). apply Hnone in Hk0. congruence. }
  rewrite lookup_insert_eq. eauto.
Qed.

(** Where the references of the collapsed graph come from. *)
Lemma collapse_inputs (g : gs.DynamicGraph) (k i : string) (nd : gs.Node) :
  collapse g !! k = Some nd → i ∈ gs.input nd →
  i = plugin_name ∨ ∃ k0 nd0, g !! k0 = Some nd0 ∧ i ∈ gs.input nd0.
Proof.
  destruct (collapse_cases g) as [[-> _]|[_ ->]]; [eauto|].
  assert (∀ k1 nd1,
    (gs.rewire namespace plugin_name <$>
      filter (fun kv : string * gs.Node => in_ns kv.1 = false) g) !! k1
    = Some nd1 → i ∈ gs.input nd1 →
    i = plugin_name ∨ ∃ k0 nd0, g !! k0 = Some nd0 ∧ i ∈ gs.input nd0) as Hout.
  { intros k1 nd1 Hk1 Hi. rewrite lookup_fmap in Hk1.
    destruct (filter _ g !! k1) as [nd0|] eqn:Hf; [|done].
    apply map_lookup_filter_Some in Hf as [Hg _]. simplify_eq/=.
    apply list_elem_of_fmap in Hi as (i0 & -> & Hi0).
    unfold gs.rename. destruct (gs.in_namespace namespace i0); eauto. }
  intros Hk Hi. destruct (decide (k = plugin_name)) as [->|Hne].
  - rewrite lookup_insert_eq in Hk. simplify_eq/=.
    apply elem_of_app in Hi as [Hi|Hi].
    + destruct (_ !! plugin_name) as [nd1|] eqn:Hp; [|by inversion Hi].
      by eapply Hout.
    + apply list_elem_of_bind in Hi as ([k0 nd0] & Hi & Hkv).
      apply elem_of_map_to_list, map_lookup_filter_Some in Hkv as [Hg _].
      apply list_elem_of_filter in Hi as [_ Hi]. eauto.
  - rewrite lookup_insert_ne in Hk by done. by eapply Hout.
Qed.

(** Once something was collapsed, no reference into the namespace is
    left, but for the plugin's own name. *)
Lemma collapse_inputs_outside (g : gs.DynamicGraph) (k i : string)
    (nd : gs.Node) :
  (∃ k0 nd0, g !! k0 = Some nd0 ∧ in_ns k0 = true) →
  collapse g !! k = Some nd → i ∈ gs.input nd →
  i = plugin_name ∨ in_ns i = false.
Proof.
  intros Hsome.
  destruct (collapse_cases g) as [[_ Hnone]|[_ ->]].
  { destruct Hsome as (k0 & nd0 & Hk0 & Hin). apply Hnone in Hk0. congruence. }
  assert (∀ k1 nd1,
    (gs.rewire namespace plugin_name <$>
      filter (fun kv : string * gs.Node => in_ns kv.1 = false) g) !! k1
    = Some nd1 → i ∈ gs.input nd1 →
    i = plugin_name ∨ in_ns i = false) as Hout.
  { intros k1 nd1 Hk1 Hi. rewrite lookup_fmap in Hk1.
    destruct (filter _ g !! k1) as [nd0|] eqn:Hf; [|done].
    simplify_eq/=.
    apply list_elem_of_fmap in Hi as (i0 & -> & Hi0).
    unfold gs.rename. destruct (gs.in_namespace namespace i0) eqn:?; eauto. }
  intros Hk Hi. destruct (decide (k = plugin_name)) as [->|Hne].
  - rewrite lookup_insert_eq in Hk. simplify_eq/=.
    apply elem_of_app in Hi as [Hi|Hi].
    + destruct (_ !! plugin_name) as [nd1|] eqn:Hp; [|by inversion Hi].
      by eapply Hout.
    + apply list_elem_of_bind in Hi as ([k0 nd0] & Hi & Hkv).
      apply list_elem_of_filter in Hi as [Hi _]. by right.
  - rewrite lookup_insert_ne in Hk by done. by eapply Hout.
Qed.

(** A reference to a name outside the namespace is kept by the node, or by
    the plugin when the node is collapsed. *)
Lemma collapse_keeps_reference (g : gs.DynamicGraph) (n r : string)
    (nd : gs.Node) :
  g !! n = Some nd → r ∈ gs.input nd → in_ns r = false →
  ∃ nd', collapse g !! gs.rename namespace plugin_name n = Some nd'
         ∧ r ∈ gs.input nd'.
Proof.
  intros Hn Hr Hout. unfold gs.rename.
  destruct (collapse_cases g) as [[-> Hnone]|[_ ->]].
  { rewrite (Hnone n nd Hn). eauto. }
  assert (in_ns n = false →
    (gs.rewire namespace plugin_name <$>
      filter (fun kv : string * gs.Node => in_ns kv.1 = false) g) !! n
    = Some (gs.rewire namespace plugin_name nd)) as Hkept.
  { intros Hin. rewrite lookup_fmap.
    rewrite (proj2 (map_lookup_filter_Some _ _ n nd)); done. }
  assert (r ∈ gs.input (gs.rewire namespace plugin_name nd)) as Hr'.
  { simpl. apply list_elem_of_fmap. exists r. split; [|done].
    unfold gs.rename. by rewrite Hout. }
  destruct (in_ns n) eqn:Hin.
  - rewrite lookup_insert_eq. eexists. split; [done|]. simpl.
    apply elem_of_app. right. apply list_elem_of_bind.
    exists (n, nd). split.
    + apply list_elem_of_filter. done.
    + apply elem_of_map_to_list, map_lookup_filter_Some. done.
  - destruct (decide (n = plugin_name)) as [->|Hne].
    + rewrite lookup_insert_eq. eexists. split; [done|]. simpl.
      apply elem_of_app. left. rewrite Hkept by done. done.
    + rewrite lookup_insert_ne by done. rewrite Hkept by done. eauto.
Qed.

(** A node outside the namespace that referenced a collapsed node now
    references the plugin. *)
Lemma collapse_rewires_reference (g : gs.DynamicGraph) (n r : string)
    (nd : gs.Node) :
  (∃ k0 nd0, g !! k0 = Some nd0 ∧ in_ns k0 = true) →
  g !! n = Some nd → r ∈ gs.input nd → in_ns r = true → in_ns n = false →
  ∃ nd', collapse g !! n = Some nd' ∧ plugin_name ∈ gs.input nd'.
Proof.
  intros Hsome Hn Hr Hrin Hnout.
  destruct (collapse_cases g) as [[_ Hnone]|[_ ->]].
  { destruct Hsome as (k0 & nd0 & Hk0 & Hin). apply Hnone in Hk0. congruence. }
  assert ((gs.rewire namespace plugin_name <$>
      filter (fun kv : string * gs.Node => in_ns kv.1 = false) g) !! n
    = Some (gs.rewire namespace plugin_name nd)) as Hkept.
  { rewrite lookup_fmap.
    rewrite (proj2 (map_lookup_filter_Some _ _ n nd)); done. }
  assert (plugin_name ∈ gs.input (gs.rewire namespace plugin_name nd)) as Hr'.
  { simpl. apply list_elem_of_fmap. exists r. split; [|done].
    unfold gs.rename. by rewrite Hrin. }
  destruct (decide (n = plugin_name)) as [->|Hne].
  - rewrite lookup_insert_eq. eexists. split; [done|]. simpl.
    apply elem_of_app. left. by rewrite Hkept.
  - rewrite lookup_insert_ne by done. rewrite Hkept. eauto.
Qed.

End Collapse.

Lemma collapse_preserves_outside (namespace plugin_name : string)
    (plugin : gs.Node) (g : gs.DynamicGraph) (k : string) :
  gs.in_namespace namespace k = false → k ≠ plugin_name →
  is_Some (g !! k) →
  is_Some (gs.collapse_namespace g (namespace, (plugin_name, plugin)) !! k).
Proof.
  intros Hk Hne [nd Hg].
  destruct (collapse_cases namespace plugin_name plugin g)
    as [[-> _]|[Hsome _]]; [eauto|].
  rewrite collapse_lookup_outside, Hg by done. eauto.
Qed.

(** ** The mapping of the SSD network *)

Lemma spares_NMS_collapsed (entry : string * (string * gs.Node))
    (g : gs.DynamicGraph) :
  spares_NMS entry → postprocessor_collapsed g →
  postprocessor_collapsed (gs.collapse_namespace g entry).
Proof.
  destruct entry as [ns [pn pl]]. intros (Hns & Hpn & Hpost) (Hkeys & Hnms & Hin).
  cbn [fst snd] in *. split_and!.
  - intros k Hk.
    destruct (gs.collapse_namespace g _ !! k) as [nd|] eqn:Hlook; [|done].
    apply collapse_keys in Hlook as [->|[nd0 Hg]]; [congruence|].
    rewrite Hkeys in Hg; done.
  - destruct Hnms as (nms & Hlook & Hop & Hattr).
    destruct (collapse_cases ns pn pl g) as [[-> _]|[Hsome _]]; [eauto|].
    exists (gs.rewire ns pn nms).
    rewrite collapse_lookup_outside, Hlook by done. done.
  - intros k nd i Hlook Hi.
    destruct (collapse_inputs ns pn pl g k i nd Hlook Hi)
      as [->|(k0 & nd0 & Hg & Hi0)]; [done|].
    by eapply Hin.
Qed.

Lemma spares_NMS_reads (entry : string * (string * gs.Node))
    (g : gs.DynamicGraph) (m : string) :
  spares_NMS entry → reads_NMS g m →
  reads_NMS (gs.collapse_namespace g entry)
            (gs.rename entry.1 entry.2.1 m).
Proof.
  destruct entry as [ns [pn pl]]. intros (Hns & _ & _) (nd & Hm & Hr).
  by eapply collapse_keeps_reference.
Qed.

Lemma spares_NMS_fold (entries : list (string * (string * gs.Node)))
    (g : gs.DynamicGraph) :
  Forall spares_NMS entries →
  postprocessor_collapsed g →
  postprocessor_collapsed (gs.collapse_namespaces g entries)
  ∧ ∀ m, reads_NMS g m →
         reads_NMS (gs.collapse_namespaces g entries)
                   (collapsed_name entries m).
Proof.
  intros Hentries. revert g.
  induction Hentries as [|entry entries Hentry _ IH]; intros g Hg; [done|].
  destruct (IH (gs.collapse_namespace g entry)) as [Hinv Hreads].
  { by apply spares_NMS_collapsed. }
  split; [exact Hinv|].
  intros m Hm. apply Hreads. by apply spares_NMS_reads.
Qed.

(** The entries of the mapping behind [Postprocessor] spare [NMS]. *)
Lemma later_entries_spare_NMS :
  Forall spares_NMS (drop 2 namespace_plugin_map).
Proof. repeat constructor; discriminate. Qed.

(** C4: in a graph with nodes named [Postprocessor/foo] and
    [Postprocessor/bar], collapsing the mapping of the SSD network leaves
    neither of them, puts the single node [NMS] with its operation and
    attributes in their place, and every node outside the namespace that
    referenced one of them references [NMS] instead, under the name it has
    after the collapse. *)
Theorem collapse_postprocessor_into_NMS (g : gs.DynamicGraph)
    (foo bar : gs.Node) :
  g !! "Postprocessor/foo" = Some foo →
  g !! "Postprocessor/bar" = Some bar →
  gs.collapse_namespaces g namespace_plugin_map !! "Postprocessor/foo" = None
  ∧ gs.collapse_namespaces g namespace_plugin_map !! "Postprocessor/bar" = None
  ∧ (∃ nms,
       gs.collapse_namespaces g namespace_plugin_map !! "NMS" = Some nms
       ∧ gs.op nms = "NMS_TRT" ∧ gs.attr nms = gs.attr NMS.2)
  ∧ ∀ n nd,
      g !! n = Some nd →
      gs.in_namespace "Postprocessor" n = false →
      "Postprocessor/foo" ∈ gs.input nd ∨ "Postprocessor/bar" ∈ gs.input nd →
      ∃ nd',
        gs.collapse_namespaces g namespace_plugin_map
          !! collapsed_name namespace_plugin_map n = Some nd'
        ∧ "NMS" ∈ gs.input nd'
        ∧ ("Postprocessor/foo" ∉ gs.input nd')
        ∧ ("Postprocessor/bar" ∉ gs.input nd').
Proof.
  intros Hfoo Hbar.
  set (g1 := gs.collapse_namespace g ("MultipleGridAnchorGenerator", PriorBox)).
  set (g2 := gs.collapse_namespace g1 ("Postprocessor", NMS)).
  assert (gs.collapse_namespaces g namespace_plugin_map
          = gs.collapse_namespaces g2 (drop 2 namespace_plugin_map)) as ->
    by reflexivity.
  assert (∀ n, collapsed_name namespace_plugin_map n
          = collapsed_name (drop 2 namespace_plugin_map)
              (gs.rename "Postprocessor" "NMS"
                 (gs.rename "MultipleGridAnchorGenerator" "GridAnchor" n)))
    as Hname by reflexivity.
  assert (∃ k0 nd0, g1 !! k0 = Some nd0
                    ∧ gs.in_namespace "Postprocessor" k0 = true) as Hsome.
  { destruct (collapse_preserves_outside "MultipleGridAnchorGenerator"
                "GridAnchor" PriorBox.2 g "Postprocessor/foo")
      as [nd0 Hnd0]; [done..|].
    exists "Postprocessor/foo", nd0. done. }
  assert (postprocessor_collapsed g2) as Hg2.
  { split_and!.
    - intros k Hk. apply collapse_removes; [done..|].
      intros ->. discriminate.
    - destruct (collapse_plugin "Postprocessor" "NMS" NMS.2 g1 Hsome)
        as (nms & ? & ? & ?). eauto.
    - intros k nd i Hlook Hi.
      destruct (collapse_inputs_outside "Postprocessor" "NMS" NMS.2 g1 k i nd
                  Hsome Hlook Hi) as [->|?]; done. }
  destruct (spares_NMS_fold (drop 2 namespace_plugin_map) g2
              later_entries_spare_NMS Hg2) as [(Hkeys & Hnms & Hin) Hreads].
  split_and!; [by apply Hkeys..|exact Hnms|].
  intros n nd Hn Hout Href. rewrite Hname.
  assert (∃ r, r ∈ gs.input nd ∧ gs.in_namespace "Postprocessor" r = true
               ∧ gs.in_namespace "MultipleGridAnchorGenerator" r = false)
    as (r & Hr & Hrin & Hrout).
  { destruct Href; [exists "Postprocessor/foo"|exists "Postprocessor/bar"];
      done. }
  destruct (collapse_keeps_reference "MultipleGridAnchorGenerator"
              "GridAnchor" PriorBox.2 g n r nd Hn Hr Hrout)
    as (nd1 & Hn1 & Hr1).
  set (n1 := gs.rename "MultipleGridAnchorGenerator" "GridAnchor" n) in *.
  assert (gs.in_namespace "Postprocessor" n1 = false) as Hn1out.
  { unfold n1, gs.rename.
    by destruct (gs.in_namespace "MultipleGridAnchorGenerator" n). }
  destruct (collapse_rewires_reference "Postprocessor" "NMS" NMS.2 g1 n1 r nd1
              Hsome Hn1 Hr1 Hrin Hn1out) as (nd2 & Hn2 & Hr2).
  assert (gs.rename "Postprocessor" "NMS" n1 = n1) as ->.
  { unfold gs.rename. by rewrite Hn1out. }
  destruct (Hreads n1) as (nd' & Hlook & Hr'); [by exists nd2|].
  exists nd'. split_and!; [done..| |].
  - intros Hbad. by apply (Hin _ _ _ Hlook) in Hbad.
  - intros Hbad. by apply (Hin _ _ _ Hlook) in Hbad.
Qed.

Lemma collapse_postprocessor_into_NMS_witness :
  gs.collapse_namespaces sample_graph namespace_plugin_map
    !! "Postprocessor/foo" = None
  ∧ ∃ nd',
      gs.collapse_namespaces sample_graph namespace_plugin_map
        !! collapsed_name namespace_plugin_map "detection_boxes" = Some nd'
      ∧ "NMS" ∈ gs.input nd'.
Proof.
  destruct (collapse_postprocessor_into_NMS sample_graph
              (gs.mkNode "Reshape" [] ["FeatureExtractor/conv"])
              (gs.mkNode "Mul" [] ["Postprocessor/foo"]))
    as (Hfoo & _ & _ & Hrefs); [reflexivity..|].
  split; [exact Hfoo|].
  destruct (Hrefs "detection_boxes"
              (gs.mkNode "Identity" []
                 ["Postprocessor/bar"; "Postprocessor/foo"]))
    as (nd' & Hlook & Hnms & _).
  - reflexivity.
  - reflexivity.
  - right. apply list_elem_of_here.
  - exists nd'. split; [exact Hlook|exact Hnms].
Defined.

(** ** Pruning the outputs *)

Lemma remove_keep_lookup (g : gs.DynamicGraph) (nodes : gset string)
    (n : string) :
  gs.remove g nodes false !! n = if decide (n ∈ nodes) then None else g !! n.
Proof.
  unfold gs.remove. destruct (decide (n ∈ nodes)) as [Hin|Hout].
  - apply map_lookup_filter_None. right. intros nd _ Hkeep. by apply Hkeep.
  - destruct (g !! n) as [nd|] eqn:Hg.
    + by apply map_lookup_filter_Some.
    + apply map_lookup_filter_None. by left.
Qed.

Lemma elem_of_graph_outputs (g : gs.DynamicGraph) (o : string) :
  o ∈ gs.graph_outputs g ↔ is_Some (g !! o) ∧ ¬ gs.consumed g o.
Proof.
  unfold gs.graph_outputs. rewrite elem_of_dom. split.
  - intros [nd Hnd]. apply map_lookup_filter_Some in Hnd as [Hg Hfree]. eauto.
  - intros [[nd Hg] Hfree]. exists nd. by apply map_lookup_filter_Some.
Qed.

Lemma upstream_consumed (g : gs.DynamicGraph) (n o : string) :
  upstream g n o → gs.consumed g n.
Proof.
  induction 1 as [n o nd Ho Hn|n m o _ IH _ _]; [|exact IH].
  apply map_Exists_lookup. eauto.
Qed.

(** C5: after the collapse, removing the outputs of the graph without
    their exclusive dependencies takes exactly those nodes away: they are
    no longer outputs, every other node is unchanged, and so is every node
    upstream of a removed output, whether or not the output was its only
    reader. *)
Theorem prune_outputs_keeps_dependencies (g : gs.DynamicGraph) :
  (∀ o, o ∈ gs.graph_outputs
              (gs.collapse_namespaces g namespace_plugin_map) →
        ssd_unsupported_nodes_to_plugin_nodes g !! o = None
        ∧ o ∉ gs.graph_outputs (ssd_unsupported_nodes_to_plugin_nodes g))
  ∧ (∀ n, n ∉ gs.graph_outputs
                (gs.collapse_namespaces g namespace_plugin_map) →
          ssd_unsupported_nodes_to_plugin_nodes g !! n
          = gs.collapse_namespaces g namespace_plugin_map !! n)
  ∧ (∀ o n, o ∈ gs.graph_outputs
                  (gs.collapse_namespaces g namespace_plugin_map) →
            upstream (gs.collapse_namespaces g namespace_plugin_map) n o →
            ssd_unsupported_nodes_to_plugin_nodes g !! n
            = gs.collapse_namespaces g namespace_plugin_map !! n).
Proof.
  unfold ssd_unsupported_nodes_to_plugin_nodes.
  set (collapsed := gs.collapse_namespaces g namespace_plugin_map).
  assert (∀ n, n ∉ gs.graph_outputs collapsed →
               gs.remove collapsed (gs.graph_outputs collapsed) false !! n
               = collapsed !! n) as Hkeep.
  { intros n Hn. rewrite remove_keep_lookup. by rewrite decide_False. }
  split_and!.
  - intros o Ho.
    assert (gs.remove collapsed (gs.graph_outputs collapsed) false !! o = None)
      as Hgone.
    { rewrite remove_keep_lookup. by rewrite decide_True. }
    split; [exact Hgone|].
    rewrite elem_of_graph_outputs, Hgone. intros [[nd ?] _]. done.
  - exact Hkeep.
  - intros o n _ Hup. apply Hkeep.
    rewrite elem_of_graph_outputs. intros [_ Hfree].
    apply Hfree. by eapply upstream_consumed.
Qed.

(** With the cascade, the sample graph loses every node: each one is read
    only by nodes that go. *)
Example prune_with_cascade_empties_sample :
  gs.remove (gs.collapse_namespaces sample_graph namespace_plugin_map)
    (gs.graph_outputs (gs.collapse_namespaces sample_graph namespace_plugin_map))
    true = ∅
  ∧ ssd_unsupported_nodes_to_plugin_nodes sample_graph
    = list_to_map
        [("FeatureExtractor/conv", gs.mkNode "Conv2D" [] []);
         ("NMS", gs.mkNode "NMS_TRT" (gs.attr NMS.2) ["FeatureExtractor/conv"])].
Proof. split; vm_compute; reflexivity. Qed.

(** ** Further properties *)

(** *** [maybe_mkdir] *)

(** [os.makedirs] makes the directories above as well. *)
Example makedirs_makes_parents :
  (maybe_mkdir sample_env "x/y" home_world).1 = inr tt
  ∧ dirs (maybe_mkdir sample_env "x/y" home_world).2
    = {["/home/user/x"; "/home/user/x/y"]} ∪ dirs home_world
  ∧ trace (maybe_mkdir sample_env "x/y" home_world).2
    = [Mkdir "x"; Mkdir "x/y"].
Proof. split_and!; vm_compute; reflexivity. Qed.

(** There is no directory of the empty name to make. *)
Example makedirs_empty_name :
  maybe_mkdir sample_env "" home_world
  = (inl FileNotFoundError, mkWorld ∅ (dirs home_world) [Mkdir ""]).
Proof. vm_compute. reflexivity. Qed.

(** Nothing can be made below a regular file. *)
Example makedirs_below_file :
  maybe_mkdir sample_env "saved/x" taken_world
  = (inl NotADirectoryError,
     mkWorld (files taken_world) (dirs taken_world) [Mkdir "saved/x"]).
Proof. vm_compute. reflexivity. Qed.

(** [maybe_mkdir] does nothing when something is at the path and is
    [os.makedirs] otherwise; however it ends, it has touched no file and
    taken no directory away. *)
Theorem maybe_mkdir_makes_directories_only_if_missing (E : Env)
    (dir_path : string) (w : World) :
  ((os_path_exists E dir_path w).1 = inr true →
   maybe_mkdir E dir_path w = (inr tt, w))
  ∧ ((os_path_exists E dir_path w).1 = inr false →
     maybe_mkdir E dir_path w = os_makedirs E dir_path w)
  ∧ files (maybe_mkdir E dir_path w).2 = files w
  ∧ dirs w ⊆ dirs (maybe_mkdir E dir_path w).2.
Proof.
  split_and!.
  - unfold maybe_mkdir, os_path_exists. unfold_monad. cbn [fst].
    by intros [= ->].
  - unfold maybe_mkdir, os_path_exists. unfold_monad. cbn [fst].
    by intros [= ->].
  - apply maybe_mkdir_makes_directories_only.
  - apply maybe_mkdir_makes_directories_only.
Qed.

(** *** What goes to the console *)

Lemma console_of_app (tr1 tr2 : list event) :
  console_of (tr1 ++ tr2) = console_of tr1 ++ console_of tr2.
Proof. apply filter_app. Qed.

Section Quiet.

Context (E : Env).

Lemma quiet_ret {A : Type} (x : A) : quiet (mret x).
Proof. by intros w. Qed.

Lemma quiet_raise {A : Type} (e : exn) : quiet (@raise A e).
Proof. by intros w. Qed.

Lemma quiet_bind {A B : Type} (m : M A) (f : A -> M B) :
  quiet m → (∀ x, quiet (f x)) → quiet (m ≫= f).
Proof.
  intros Hm Hf w. unfold mbind, M_bind.
  specialize (Hm w). destruct (m w) as [[e|x] w1]; [done|].
  rewrite <- Hm. apply Hf.
Qed.

Lemma quiet_except (m : M unit) : quiet m → quiet (except_FileExistsError m).
Proof.
  intros Hm w. unfold except_FileExistsError.
  specialize (Hm w). by destruct (m w) as [[[]|[]] w1].
Qed.

Lemma quiet_emit (e : event) : is_console e = false → quiet (emit e).
Proof.
  intros He w. unfold emit. cbn [snd trace].
  rewrite console_of_app. unfold console_of at 2. cbn.
  rewrite decide_False by (rewrite He; done). by rewrite app_nil_r.
Qed.

Lemma quiet_get_world : quiet get_world.
Proof. by intros w. Qed.

Lemma quiet_set_files (fs : gmap string bytes) : quiet (set_files fs).
Proof. by intros w. Qed.

Lemma quiet_set_dirs (ds : gset string) : quiet (set_dirs ds).
Proof. by intros w. Qed.

Lemma quiet_exists (path : string) : quiet (os_path_exists E path).
Proof. by intros w. Qed.

(** Splits a computation along its binds and branches; what is left are
    the calls that may print. *)
Ltac quiet_step :=
  repeat first
    [ apply quiet_bind; [|intros ?]
    | apply quiet_emit; reflexivity
    | apply quiet_ret | apply quiet_raise | apply quiet_get_world
    | apply quiet_set_files | apply quiet_set_dirs | apply quiet_exists
    | match goal with
      | |- quiet (match ?x with _ => _ end) => destruct x
      | |- quiet (if ?b then _ else _) => destruct b
      end ].

Lemma quiet_maybe_print_silent (s : string) : quiet (maybe_print false s).
Proof. apply quiet_ret. Qed.

Lemma quiet_os_mkdir (path : string) : quiet (os_mkdir E path).
Proof. unfold os_mkdir. quiet_step. Qed.

Lemma quiet_makedirs (depth : nat) (name : string) :
  quiet (makedirs E depth name).
Proof.
  revert name. induction depth as [|depth IH]; intros name;
    [apply quiet_os_mkdir|].
  cbn [makedirs]. unfold makedirs_body.
  destruct (posixpath.split name) as [head1 tail1].
  destruct (if String.eqb tail1 "" then posixpath.split head1
            else (head1, tail1)) as [head tail].
  destruct (_ && _); [|apply quiet_os_mkdir].
  apply quiet_bind; [apply quiet_exists|intros present].
  destruct (negb present); [|apply quiet_os_mkdir].
  apply quiet_bind; [apply quiet_except, IH|intros _].
  destruct (String.eqb tail "."); [apply quiet_ret|apply quiet_os_mkdir].
Qed.

Lemma quiet_maybe_mkdir (dir_path : string) : quiet (maybe_mkdir E dir_path).
Proof.
  unfold maybe_mkdir, os_makedirs.
  apply quiet_bind; [apply quiet_exists|intros present].
  destruct (negb present); [apply quiet_makedirs|apply quiet_ret].
Qed.

Lemma quiet_open_wb (path : string) : quiet (open_wb E path).
Proof. unfold open_wb. quiet_step. Qed.

Lemma quiet_file_write (f : string) (chunk : bytes) :
  quiet (file_write f chunk).
Proof. unfold file_write. quiet_step. Qed.

Lemma quiet_download_file_silent (file_url file_dest_path : string) :
  quiet (download_file E file_url file_dest_path true).
Proof.
  unfold download_file, requests_get. cbn [negb].
  apply quiet_bind; [apply quiet_open_wb|intros f].
  apply quiet_bind; [apply quiet_maybe_print_silent|intros _].
  apply quiet_bind; [quiet_step|intros response].
  destruct (content_length response); apply quiet_file_write.
Qed.

Lemma quiet_check_members (path : string) (tar : TarFile) :
  quiet (check_members E path tar).
Proof.
  induction tar as [|member rest IH]; simpl; [apply quiet_ret|].
  destruct (negb _); [apply quiet_raise|done].
Qed.

Lemma quiet_extract_member (path : string) (member : TarInfo) :
  quiet (extract_member E path member).
Proof.
  unfold extract_member.
  apply quiet_bind.
  { destruct (negb _); [|apply quiet_ret].
    apply quiet_bind; [apply quiet_exists|intros present].
    destruct (negb present); [apply quiet_makedirs|apply quiet_ret]. }
  intros _. apply quiet_bind; [apply quiet_open_wb|intros f].
  apply quiet_file_write.
Qed.

Lemma quiet_extract_each (path : string) (members : list TarInfo) :
  quiet (extract_each E path members).
Proof.
  induction members as [|member rest IH]; simpl; [apply quiet_ret|].
  apply quiet_bind; [apply quiet_extract_member|by intros _].
Qed.

Lemma quiet_safe_extract (tar : TarFile) (path : string)
    (members : option (list TarInfo)) (numeric_owner : bool) :
  quiet (safe_extract E tar path members numeric_owner).
Proof.
  unfold safe_extract, extractall.
  apply quiet_bind; [apply quiet_check_members|intros _].
  apply quiet_extract_each.
Qed.

Lemma quiet_download_model_silent (model_name : string) :
  quiet (download_model E model_name true).
Proof.
  unfold download_model. cbn [negb].
  apply quiet_bind; [apply quiet_maybe_print_silent|intros _].
  apply quiet_bind; [apply quiet_maybe_mkdir|intros _].
  apply quiet_bind; [apply quiet_download_file_silent|intros _].
  apply quiet_bind; [apply quiet_maybe_print_silent|intros _].
  apply quiet_bind; [unfold tarfile_open; quiet_step|intros tar].
  apply quiet_bind; [apply quiet_safe_extract|intros _].
  apply quiet_bind; [apply quiet_maybe_print_silent|intros _].
  apply quiet_bind; [unfold os_remove; quiet_step|intros _].
  apply quiet_maybe_print_silent.
Qed.

End Quiet.

(** With [silent] set, neither [download_file] nor [download_model] sends
    anything to standard output, whether they return or raise. *)
Theorem silent_prints_nothing (E : Env) (model_name file_url path : string) :
  quiet (download_file E file_url path true)
  ∧ quiet (download_model E model_name true).
Proof.
  split.
  - apply quiet_download_file_silent.
  - apply quiet_download_model_silent.
Qed.

(** *** What [download_file] touches *)

Section WritesOnly.

Context (E : Env) (f : string).

Lemma writes_only_ret {A : Type} (x : A) : writes_only f (mret x).
Proof. by intros w. Qed.

Lemma writes_only_raise {A : Type} (e : exn) : writes_only f (@raise A e).
Proof. by intros w. Qed.

Lemma writes_only_emit (e : event) : writes_only f (emit e).
Proof. by intros w. Qed.

Lemma writes_only_bind {A B : Type} (m : M A) (k : A -> M B) :
  writes_only f m → (∀ x, writes_only f (k x)) → writes_only f (m ≫= k).
Proof.
  intros Hm Hk w. unfold mbind, M_bind.
  destruct (Hm w) as [Hdirs Hfiles]. destruct (m w) as [[e|x] w1]; [done|].
  destruct (Hk x w1) as [Hdirs' Hfiles']. cbn [snd] in *. split.
  - by rewrite Hdirs'.
  - intros p Hp. by rewrite Hfiles', Hfiles.
Qed.

Lemma writes_only_file_write (chunk : bytes) :
  writes_only f (file_write f chunk).
Proof.
  intros w. unfold file_write. unfold_monad. cbn [snd files dirs].
  split; [done|]. intros p Hp. by rewrite lookup_insert_ne.
Qed.

Lemma writes_only_print (s : string) : writes_only f (print s).
Proof. apply writes_only_emit. Qed.

Lemma writes_only_maybe_print (b : bool) (s : string) :
  writes_only f (maybe_print b s).
Proof. destruct b; [apply writes_only_print|apply writes_only_ret]. Qed.

Lemma writes_only_download_chunks (total_length : Z) (chunks : list bytes)
    (dl : Z) :
  writes_only f (download_chunks f total_length chunks dl).
Proof.
  revert dl. induction chunks as [|data rest IH]; intros dl; simpl.
  - apply writes_only_ret.
  - apply writes_only_bind; [apply writes_only_file_write|intros _].
    apply writes_only_bind.
    { destruct (total_length =? 0)%Z;
        [apply writes_only_raise|apply writes_only_emit]. }
    intros _. apply writes_only_bind; [apply writes_only_emit|intros _].
    apply IH.
Qed.

(** What [download_file] does with the file it has opened. *)
Lemma writes_only_after_open (file_url file_dest_path : string)
    (silent : bool) :
  writes_only f
    (maybe_print (negb silent) ("Downloading " +:+ file_dest_path);;
     response ← requests_get E file_url;
     match content_length response with
     | Some total_length =>
         if silent then file_write f (content response)
         else
           match PyInt.int (int_max_str_digits E) total_length with
           | Some total_length0 =>
               download_chunks f total_length0
                 (iter_content response 4096%N) 0%Z;;
               stdout_write (Str newline);; stdout_flush
           | None => raise ValueError
           end
     | None => file_write f (content response)
     end).
Proof.
  apply writes_only_bind; [apply writes_only_maybe_print|intros _].
  apply writes_only_bind.
  { unfold requests_get.
    apply writes_only_bind; [apply writes_only_emit|intros _].
    destruct (network E file_url);
      [apply writes_only_ret|apply writes_only_raise]. }
  intros response.
  destruct (content_length response) as [s|];
    [|apply writes_only_file_write].
  destruct silent; [apply writes_only_file_write|].
  destruct (PyInt.int _ s) as [n|]; [|apply writes_only_raise].
  apply writes_only_bind; [apply writes_only_download_chunks|intros _].
  unfold stdout_write, stdout_flush.
  apply writes_only_bind; [apply writes_only_emit|intros _].
  apply writes_only_emit.
Qed.

End WritesOnly.

(** However [download_file] ends, it leaves the directories and every file
    other than its destination as they were. *)
Theorem download_file_touches_only_destination (E : Env)
    (file_url file_dest_path : string) (silent : bool) :
  writes_only (resolve E file_dest_path)
    (download_file E file_url file_dest_path silent).
Proof.
  intros w.
  destruct (open_wb E file_dest_path w) as [[e|f] w1] eqn:Hopen.
  { rewrite (download_file_not_opened E file_url file_dest_path silent w e)
      by by rewrite Hopen.
    done. }
  unfold download_file. rewrite (bind_inr _ _ w _ _ Hopen).
  apply open_wb_returns in Hopen as [-> ->].
  destruct (writes_only_after_open E (resolve E file_dest_path) file_url
              file_dest_path silent
              (mkWorld (<[resolve E file_dest_path := []]> (files w)) (dirs w)
                 (trace w ++ [OpenWb file_dest_path]))) as [Hdirs Hfiles].
  split; [exact Hdirs|].
  intros p Hp. rewrite Hfiles by done. cbn [files].
  by rewrite lookup_insert_ne.
Qed.

(** When the network gives no answer, [download_file] raises the error of
    [requests] after it has opened the destination: a file that was there
    is left empty. *)
Theorem download_file_network_failure (E : Env)
    (file_url file_dest_path : string) (silent : bool) (w : World) :
  (open_wb E file_dest_path w).1 = inr (resolve E file_dest_path) →
  network E file_url = None →
  download_file E file_url file_dest_path silent w
  = (inl RequestException,
     mkWorld (<[resolve E file_dest_path := []]> (files w)) (dirs w)
       (trace w ++ [OpenWb file_dest_path]
        ++ (if silent then []
            else [Stdout (Str (("Downloading " +:+ file_dest_path)
                               +:+ newline))])
        ++ [HttpGet file_url])).
Proof.
  intros Hopen Hnet. unfold download_file.
  erewrite bind_inr; [|by eapply open_wb_opens].
  cbv beta. unfold maybe_print, print, requests_get. rewrite Hnet.
  destruct silent; unfold_monad; cbn [negb files dirs trace];
    by rewrite <- ?app_assoc.
Qed.

Lemma download_file_network_failure_witness :
  (download_file sample_env "http://host/a.tar.gz" "a.tar.gz" true
     (mkWorld {["/home/user/a.tar.gz" := [x01]]} (dirs home_world) [])).1
  = inl RequestException
  ∧ files (download_file sample_env "http://host/a.tar.gz" "a.tar.gz" true
             (mkWorld {["/home/user/a.tar.gz" := [x01]]} (dirs home_world)
                [])).2
    !! "/home/user/a.tar.gz" = Some [].
Proof.
  rewrite (download_file_network_failure sample_env "http://host/a.tar.gz"
             "a.tar.gz" true
             (mkWorld {["/home/user/a.tar.gz" := [x01]]} (dirs home_world) [])
             eq_refl eq_refl).
  split; [reflexivity|]. cbn [snd files]. apply lookup_insert_eq.
Defined.

(** A [content-length] header that [int] does not accept: unless [silent]
    is set, [download_file] raises [ValueError] before any byte of the
    body is written and leaves the destination empty; with [silent] set
    the header is not read and the body is written. *)
Theorem download_file_rejects_bad_length (E : Env)
    (file_url file_dest_path s : string) (w : World) (response : Response) :
  (open_wb E file_dest_path w).1 = inr (resolve E file_dest_path) →
  network E file_url = Some response →
  content_length response = Some s →
  PyInt.int (int_max_str_digits E) s = None →
  (download_file E file_url file_dest_path false w).1 = inl ValueError
  ∧ files (download_file E file_url file_dest_path false w).2
    !! resolve E file_dest_path = Some []
  ∧ writes_of (trace (download_file E file_url file_dest_path false w).2)
    = writes_of (trace w)
  ∧ (download_file E file_url file_dest_path true w).1 = inr tt
  ∧ files (download_file E file_url file_dest_path true w).2
    !! resolve E file_dest_path = Some (content response).
Proof.
  intros Hopen Hnet Hlen Hint.
  rewrite (download_file_bad_length E file_url file_dest_path s w response)
    by done.
  rewrite (download_file_buffered E file_url file_dest_path true w response)
    by (done || by right).
  cbn [fst snd files trace]. split_and!; try done.
  - apply lookup_insert_eq.
  - rewrite !writes_of_app. cbn. by rewrite app_nil_r.
  - apply lookup_insert_eq.
Qed.

Lemma download_file_rejects_bad_length_witness :
  (download_file (serving_env repeated_length_response)
     "http://host/a.tar.gz" "a.tar.gz" false home_world).1
  = inl ValueError.
Proof.
  destruct (download_file_rejects_bad_length
              (serving_env repeated_length_response) "http://host/a.tar.gz"
              "a.tar.gz" "5, 5" home_world repeated_length_response
              eq_refl eq_refl eq_refl eq_refl) as [Herr _].
  exact Herr.
Defined.

(** The separators 28 to 31 are no whitespace for [int]: a header that
    ends with one is refused. *)
Example int_refuses_separator :
  PyInt.int 4300 ("5" +:+ String (ascii_of_nat 31) "") = None
  ∧ PyInt.int 4300 (String (ascii_of_nat 28) "5") = None
  ∧ PyInt.int 4300 (String (ascii_of_nat 160) "5") = Some 5%Z.
Proof. split_and!; reflexivity. Qed.

(** A header that reads as zero while a body follows: unless [silent] is
    set, the first chunk is written and the progress computation then
    divides by zero; the destination holds that first chunk only. *)
Theorem download_file_zero_length (E : Env)
    (file_url file_dest_path s : string) (w : World) (response : Response)
    (data : bytes) (rest : list bytes) :
  (open_wb E file_dest_path w).1 = inr (resolve E file_dest_path) →
  network E file_url = Some response →
  content_length response = Some s →
  PyInt.int (int_max_str_digits E) s = Some 0%Z →
  iter_content response 4096%N = data :: rest →
  (download_file E file_url file_dest_path false w).1 = inl ZeroDivisionError
  ∧ files (download_file E file_url file_dest_path false w).2
    !! resolve E file_dest_path = Some data
  ∧ writes_of (trace (download_file E file_url file_dest_path false w).2)
    = writes_of (trace w) ++ [data].
Proof.
  intros Hopen Hnet Hlen Hint Hchunks. unfold download_file.
  erewrite bind_inr; [|by eapply open_wb_opens].
  cbv beta. unfold maybe_print, print, requests_get. rewrite Hnet.
  unfold_monad. cbn [negb files dirs trace]. rewrite Hlen, Hint, Hchunks.
  cbn [download_chunks]. unfold file_write. unfold_monad.
  cbn [negb files dirs trace fst snd Z.eqb].
  rewrite !lookup_insert_eq. cbn [default app fst snd files trace].
  split_and!; [done..|].
  rewrite !writes_of_app. cbn. by rewrite !app_nil_r.
Qed.

Lemma download_file_zero_length_witness :
  (download_file (serving_env zero_length_response) "http://host/a.tar.gz"
     "a.tar.gz" false home_world).1
  = inl ZeroDivisionError
  ∧ files (download_file (serving_env zero_length_response)
             "http://host/a.tar.gz" "a.tar.gz" false home_world).2
    !! resolve (serving_env zero_length_response) "a.tar.gz"
    = Some [x50; x4b; x03].
Proof.
  destruct (download_file_zero_length (serving_env zero_length_response)
              "http://host/a.tar.gz" "a.tar.gz" "0" home_world
              zero_length_response [x50; x4b; x03] [[x04; x0a]]
              eq_refl eq_refl eq_refl eq_refl eq_refl) as (Herr & Hfile & _).
  split; [exact Herr|exact Hfile].
Defined.






(** *** What a returned [download_file] has written *)

Section Returns.

Context (E : Env).

Lemma download_file_returns (file_url file_dest_path : string)
    (silent : bool) (w w' : World) (response : Response) :
  network E file_url = Some response →
  download_file E file_url file_dest_path silent w = (inr tt, w') →
  files w'
  = <[resolve E file_dest_path := downloaded response silent]> (files w)
  ∧ dirs w' = dirs w.
Proof.
  intros Hnet Hrun. unfold downloaded.
  assert ((open_wb E file_dest_path w).1 = inr (resolve E file_dest_path))
    as Hopen.
  { destruct (open_wb E file_dest_path w) as [[e|f] w1] eqn:Hopen.
    - rewrite (download_file_not_opened E file_url file_dest_path silent w e)
        in Hrun by by rewrite Hopen.
      done.
    - by apply open_wb_returns in Hopen as [-> _]. }
  destruct (content_length response) as [s|] eqn:Hlen.
  2: { rewrite (download_file_buffered E file_url file_dest_path silent w
                 response) in Hrun by (done || by left).
       by injection Hrun as <-. }
  destruct silent.
  { rewrite (download_file_buffered E file_url file_dest_path true w
               response) in Hrun by (done || by right).
    injection Hrun as <-. by rewrite orb_true_r. }
  cbn [orb]. rewrite bool_decide_eq_false_2 by done.
  destruct (PyInt.int (int_max_str_digits E) s) as [n|] eqn:Hint.
  2: { by rewrite (download_file_bad_length E file_url file_dest_path s w
                     response) in Hrun by done. }
  destruct (decide (n = 0%Z)) as [->|Hn].
  - revert Hrun. unfold download_file.
    erewrite bind_inr; [|by eapply open_wb_opens].
    cbv beta. unfold maybe_print, print, requests_get. rewrite Hnet.
    unfold stdout_write, stdout_flush. unfold_monad.
    cbn [negb files dirs trace]. rewrite Hlen, Hint.
    destruct (iter_content response 4096%N) as [|data rest].
    + cbn [download_chunks fst snd files concat]. unfold_monad.
      by intros [= <-].
    + cbn [download_chunks]. unfold file_write. unfold_monad.
      cbn [negb files dirs trace fst snd Z.eqb]. done.
  - rewrite (download_file_streamed E file_url file_dest_path s n w response)
      in Hrun by done.
    by injection Hrun as <-.
Qed.

End Returns.

(** Whenever [download_file] returns, the destination holds the whole
    body: [response.content] when it was written in one piece, the chunks
    put together when it was streamed. *)
Theorem download_file_returns_whole_body (E : Env)
    (file_url file_dest_path : string) (silent : bool) (w : World)
    (response : Response) :
  network E file_url = Some response →
  (download_file E file_url file_dest_path silent w).1 = inr tt →
  files (download_file E file_url file_dest_path silent w).2
  !! resolve E file_dest_path
  = Some (if bool_decide (content_length response = None) || silent
          then content response
          else concat (iter_content response 4096%N)).
Proof.
  intros Hnet Hok.
  destruct (download_file E file_url file_dest_path silent w)
    as [[e|[]] w'] eqn:Hrun; [done|].
  apply (download_file_returns E _ _ _ _ _ response Hnet) in Hrun
    as [Hfiles _].
  cbn [snd]. rewrite Hfiles. apply lookup_insert_eq.
Qed.

Lemma download_file_returns_whole_body_witness :
  files (download_file (serving_env sample_response) "http://host/a.tar.gz"
           "a.tar.gz" false home_world).2
  !! resolve (serving_env sample_response) "a.tar.gz"
  = Some (if bool_decide (content_length sample_response = None) || false
          then content sample_response
          else concat (iter_content sample_response 4096%N)).
Proof.
  apply (download_file_returns_whole_body (serving_env sample_response)
           "http://host/a.tar.gz" "a.tar.gz" false home_world
           sample_response).
  - reflexivity.
  - vm_compute. reflexivity.
Defined.

(** *** More on [safe_extract] *)

(** [safe_extract] decides before it extracts: either some member of the
    archive fails the check, the exception is raised and the world is
    untouched, or every member passes and [safe_extract] is
    [tar.extractall]. *)
Theorem safe_extract_checks_then_extracts (E : Env) (tar : TarFile)
    (path : string) (members : option (list TarInfo)) (numeric_owner : bool)
    (w : World) :
  (Exists (fun member =>
             is_within_directory E path (posixpath.join path (name member))
             = false) tar
   ∧ safe_extract E tar path members numeric_owner w
     = (inl (Exception "Attempted Path Traversal in Tar File"), w))
  ∨ (Forall (fun member =>
               is_within_directory E path (posixpath.join path (name member))
               = true) tar
     ∧ safe_extract E tar path members numeric_owner w
       = extractall E tar path members numeric_owner w).
Proof. apply safe_extract_checks. Qed.



(** *** More on [is_within_directory] *)

(** [is_within_directory] answers [True] exactly when the absolute path of
    the directory is a leading string of the absolute path of the target.
    So a directory is within itself, and the check composes. *)
Theorem is_within_directory_leading_string (E : Env)
    (directory target other : string) :
  (is_within_directory E directory target = true
   ↔ ∃ rest, posixpath.abspath (getcwd E) target
             = posixpath.abspath (getcwd E) directory +:+ rest)
  ∧ is_within_directory E directory directory = true
  ∧ (is_within_directory E directory target = true →
     is_within_directory E target other = true →
     is_within_directory E directory other = true).
Proof.
  rewrite !is_within_directory_prefix. split_and!.
  - apply prefix_app_iff.
  - apply prefix_refl.
  - rewrite !prefix_app_iff. intros [r1 ->] [r2 ->].
    exists (r1 +:+ r2).
    induction (posixpath.abspath (getcwd E) directory) as [|c a IH]; [done|].
    rewrite !append_cons. by rewrite IH.
Qed.

(** *** Names that cannot leave the directory *)

(** A relative member name with no [..] component always passes the check,
    whatever the destination directory; an archive of such names is never
    refused: [safe_extract] is [tar.extractall] on it. *)
Theorem safe_extract_accepts_plain_names (E : Env) (tar : TarFile)
    (path : string) (numeric_owner : bool) (w : World) :
  posixpath.isabs (getcwd E) = true →
  Forall (fun member =>
            posixpath.isabs (name member) = false
            ∧ ".." ∉ Py.split_sep (name member)) tar →
  Forall (fun member =>
            is_within_directory E path (posixpath.join path (name member))
            = true) tar
  ∧ safe_extract E tar path None numeric_owner w
    = extractall E tar path None numeric_owner w.
Proof.
  intros Hcwd Hplain.
  assert (Forall (fun member =>
            is_within_directory E path (posixpath.join path (name member))
            = true) tar) as Hpass.
  { eapply Forall_impl; [exact Hplain|].
    intros member [Hrel Hno]. rewrite is_within_directory_prefix.
    destruct (components_of_join (getcwd E) path (name member) Hcwd Hrel Hno)
      as [Hroot Hcomps].
    unfold posixpath.abspath.
    fold (anchored (getcwd E) path)
         (anchored (getcwd E) (posixpath.join path (name member))).
    rewrite !normpath_isabs by by apply anchored_isabs.
    fold (root_of (getcwd E) path)
         (root_of (getcwd E) (posixpath.join path (name member))).
    fold (components_of (getcwd E) path)
         (components_of (getcwd E) (posixpath.join path (name member))).
    rewrite Hroot, Hcomps. rewrite prefix_cons.
    destruct (ascii_dec "/" "/"); [|done].
    rewrite prefix_append_same. apply join_sep_app_prefix. }
  split; [exact Hpass|]. by apply safe_extract_checked.
Qed.

Lemma safe_extract_accepts_plain_names_witness :
  safe_extract sample_env [good_member; mkTarInfo "./a//b.txt" [x07]] "models"
    None false home_world
  = extractall sample_env [good_member; mkTarInfo "./a//b.txt" [x07]] "models"
      None false home_world.
Proof.
  apply (safe_extract_accepts_plain_names sample_env
           [good_member; mkTarInfo "./a//b.txt" [x07]] "models" false
           home_world).
  - reflexivity.
  - apply Forall_cons_2.
    { split; [reflexivity|]. refine (bool_decide_unpack _ _). vm_compute. exact I. }
    apply Forall_cons_2; [|apply Forall_nil_2].
    split; [reflexivity|]. refine (bool_decide_unpack _ _). vm_compute. exact I.
Defined.

(** *** [download_model] *)

Section DownloadModel.

Context (E : Env).

Lemma maybe_print_run (should_print : bool) (print_arg : string) (w : World) :
  maybe_print should_print print_arg w
  = (inr tt,
     mkWorld (files w) (dirs w)
       (trace w ++ if should_print
                   then [Stdout (Str (print_arg +:+ newline))] else [])).
Proof.
  destruct should_print; cbn; [done|]. rewrite app_nil_r. by destruct w.
Qed.

(** [tarfile.open] that returns has read the archive from the file the
    path names, and has changed nothing. *)
Lemma tarfile_open_returns (path : string) (tar : TarFile) (w w' : World) :
  tarfile_open E path w = (inr tar, w') →
  w' = mkWorld (files w) (dirs w) (trace w ++ [TarOpen path])
  ∧ ∃ archive,
      files w !! resolve E path = Some archive
      ∧ tar_decode E archive = Some tar.
Proof.
  unfold tarfile_open. unfold_monad. cbn [files dirs trace].
  destruct (locate E _ path) as [e|loc] eqn:Hloc; [done|].
  apply (locate_dirs E _ w) in Hloc; [|done].
  apply locate_resolve in Hloc. rewrite Hloc.
  destruct (isdir_at _ loc); [done|].
  destruct (files w !! resolve E path) as [archive|]; [|done].
  destruct (Py.endswith_sep path); [done|].
  destruct (tar_decode E archive) as [tar'|] eqn:Hdecode; [|done].
  intros [= <- <-]. eauto.
Qed.

(** [os.remove] that returns has removed the file the path names. *)
Lemma os_remove_returns (path : string) (w w' : World) :
  os_remove E path w = (inr tt, w') →
  w' = mkWorld (delete (resolve E path) (files w)) (dirs w)
         (trace w ++ [Remove path]).
Proof.
  unfold os_remove. unfold_monad. cbn [files dirs trace].
  destruct (locate E _ path) as [e|loc] eqn:Hloc; [done|].
  apply (locate_dirs E _ w) in Hloc; [|done].
  apply locate_resolve in Hloc. rewrite Hloc.
  destruct (isdir_at _ loc); [done|].
  destruct (files w !! resolve E path) as [archive|]; [|done].
  destruct (Py.endswith_sep path); [done|].
  by intros [= <-].
Qed.

(** The path-traversal exception is the only [Exception] that leaves
    [safe_extract], and it leaves it with the world untouched. *)
Lemma safe_extract_raises_Exception (tar : TarFile) (path msg : string)
    (members : option (list TarInfo)) (numeric_owner : bool) (w w' : World) :
  safe_extract E tar path members numeric_owner w = (inl (Exception msg), w') →
  w' = w
  ∧ msg = "Attempted Path Traversal in Tar File"
  ∧ Exists (fun member =>
              is_within_directory E path (posixpath.join path (name member))
              = false) tar.
Proof.
  intros Hrun.
  destruct (safe_extract_checks E tar path members numeric_owner w)
    as [[Hbad Hraise]|[Hgood Hsame]].
  - rewrite Hraise in Hrun. by injection Hrun as <- <-.
  - rewrite Hsame in Hrun. unfold extractall in Hrun.
    pose proof (never_extract_each E is_Exception is_Exception_own path
                  (default tar members) w (Exception msg)) as Hnever.
    rewrite Hrun in Hnever. destruct Hnever; [by exists msg|done].
Qed.

End DownloadModel.

Section DownloadModelRuns.

Context (E : Env).

Lemma maybe_print_returns (should_print : bool) (print_arg : string)
    (w w' : World) (r : exn + unit) :
  maybe_print should_print print_arg w = (r, w') →
  r = inr tt ∧ files w' = files w ∧ dirs w' = dirs w.
Proof. rewrite maybe_print_run. by intros [= <- <-]. Qed.

Lemma makes_directories_only_run {A : Type} (m : M A) (w w' : World)
    (r : exn + A) :
  makes_directories_only m → m w = (r, w') → files w' = files w.
Proof. intros Hm Hrun. destruct (Hm w) as [Hfiles _]. by rewrite Hrun in Hfiles. Qed.

Lemma never_raises_run {A : Type} (bad : exn -> Prop) (m : M A)
    (w w' : World) (e : exn) :
  never_raises bad m → bad e → m w ≠ (inl e, w').
Proof. intros Hm He Hrun. apply (Hm w e He). by rewrite Hrun. Qed.

(** The steps of [download_model] up to the check of the archive, when
    they have all returned: no file has changed but the archive, which
    holds what was downloaded and has been read as [tar]. *)
Lemma download_model_until_check (model_name : string) (silent : bool)
    (w w' : World) (response : Response) (r : exn + unit)
    (k : TarFile -> M unit) :
  network E (get_model_url E model_name) = Some response →
  (maybe_print (negb silent) "Preparing pretrained model";;
   maybe_mkdir E (get_models_dir_path E);;
   download_file E (get_model_url E model_name)
     (model_archive_path E model_name) silent;;
   maybe_print (negb silent)
     ("Download complete" +:+ newline +:+ "Unpacking "
      +:+ model_archive_path E model_name);;
   tar ← tarfile_open E (model_archive_path E model_name);
   k tar) w = (r, w') →
  (∃ e, r = inl e ∧ ¬ is_Exception e)
  ∨ ∃ tar w1,
      files w1
      = <[resolve E (model_archive_path E model_name)
          := downloaded response silent]> (files w)
      ∧ tar_decode E (downloaded response silent) = Some tar
      ∧ k tar w1 = (r, w').
Proof.
  intros Hnet Hrun.
  assert (∀ {A : Type} (m : M A) (w0 w0' : World) (e : exn),
            never_raises is_Exception m → m w0 = (inl e, w0') →
            ¬ is_Exception e) as Hnot.
  { intros A m w0 w0' e Hm Hraise He. by eapply never_raises_run. }
  pose proof is_Exception_own as Hown.
  destruct r as [e|[]].
  - (* the run raised *)
    apply bind_inv_inl in Hrun as [Hraise|([] & w1 & Hstep1 & Hrun)].
    { by apply maybe_print_returns in Hraise as [? _]. }
    apply maybe_print_returns in Hstep1 as (_ & Hfiles1 & _).
    apply bind_inv_inl in Hrun as [Hraise|([] & w2 & Hstep2 & Hrun)].
    { left. exists e. split; [done|].
      eapply Hnot; [|exact Hraise]. by apply never_maybe_mkdir. }
    apply (makes_directories_only_run _ _ _ _
             (maybe_mkdir_makes_directories_only E _)) in Hstep2 as Hfiles2.
    apply bind_inv_inl in Hrun as [Hraise|([] & w3 & Hstep3 & Hrun)].
    { left. exists e. split; [done|].
      eapply Hnot; [|exact Hraise]. by apply never_download_file. }
    apply (download_file_returns E _ _ _ _ _ response Hnet) in Hstep3
      as [Hfiles3 _].
    apply bind_inv_inl in Hrun as [Hraise|([] & w4 & Hstep4 & Hrun)].
    { by apply maybe_print_returns in Hraise as [? _]. }
    apply maybe_print_returns in Hstep4 as (_ & Hfiles4 & _).
    apply bind_inv_inl in Hrun as [Hraise|(tar & w5 & Hstep5 & Hrun)].
    { left. exists e. split; [done|].
      eapply Hnot; [|exact Hraise]. by apply never_tarfile_open. }
    apply tarfile_open_returns in Hstep5 as [-> (archive & Harchive & Hdecode)].
    right. exists tar. eexists. split_and!; [| |exact Hrun].
    + cbn [files]. by rewrite Hfiles4, Hfiles3, Hfiles2, Hfiles1.
    + rewrite Hfiles4, Hfiles3, lookup_insert_eq in Harchive.
      by injection Harchive as <-.
  - (* the run returned *)
    apply bind_inv_inr in Hrun as ([] & w1 & Hstep1 & Hrun).
    apply maybe_print_returns in Hstep1 as (_ & Hfiles1 & _).
    apply bind_inv_inr in Hrun as ([] & w2 & Hstep2 & Hrun).
    apply (makes_directories_only_run _ _ _ _
             (maybe_mkdir_makes_directories_only E _)) in Hstep2 as Hfiles2.
    apply bind_inv_inr in Hrun as ([] & w3 & Hstep3 & Hrun).
    apply (download_file_returns E _ _ _ _ _ response Hnet) in Hstep3
      as [Hfiles3 _].
    apply bind_inv_inr in Hrun as ([] & w4 & Hstep4 & Hrun).
    apply maybe_print_returns in Hstep4 as (_ & Hfiles4 & _).
    apply bind_inv_inr in Hrun as (tar & w5 & Hstep5 & Hrun).
    apply tarfile_open_returns in Hstep5 as [-> (archive & Harchive & Hdecode)].
    right. exists tar. eexists. split_and!; [| |exact Hrun].
    + cbn [files]. by rewrite Hfiles4, Hfiles3, Hfiles2, Hfiles1.
    + rewrite Hfiles4, Hfiles3, lookup_insert_eq in Harchive.
      by injection Harchive as <-.
Qed.

End DownloadModelRuns.

(** When [download_model] ends in the path-traversal exception, a member
    of the downloaded archive has failed the check and nothing has been
    extracted: the files are those from before and the archive, which is
    left on disk. *)
Theorem download_model_traversal_keeps_archive (E : Env)
    (model_name : string) (silent : bool) (w w' : World)
    (response : Response) :
  network E (get_model_url E model_name) = Some response →
  download_model E model_name silent w
  = (inl (Exception "Attempted Path Traversal in Tar File"), w') →
  files w'
  = <[resolve E (model_archive_path E model_name)
      := downloaded response silent]> (files w)
  ∧ ∃ tar,
      tar_decode E (downloaded response silent) = Some tar
      ∧ Exists (fun member =>
                  is_within_directory E (get_models_dir_path E)
                    (posixpath.join (get_models_dir_path E) (name member))
                  = false) tar.
Proof.
  intros Hnet Hrun. unfold download_model in Hrun.
  fold (model_archive_path E model_name) in Hrun.
  apply (download_model_until_check E _ _ _ _ response _ _ Hnet) in Hrun
    as [(e & [= <-] & Hnot)|(tar & w1 & Hfiles & Hdecode & Hrun)].
  { destruct Hnot. by eexists. }
  apply bind_inv_inl in Hrun as [Hraise|([] & w2 & _ & Hrun)].
  - apply safe_extract_raises_Exception in Hraise as (-> & _ & Hbad).
    split; [done|by exists tar].
  - apply bind_inv_inl in Hrun as [Hraise|([] & w3 & _ & Hrun)].
    { by apply maybe_print_returns in Hraise as [? _]. }
    apply bind_inv_inl in Hrun as [Hraise|([] & w4 & _ & Hrun)].
    { exfalso. eapply (never_raises_run is_Exception);
        [apply never_os_remove, is_Exception_own| |exact Hraise].
      by eexists. }
    by apply maybe_print_returns in Hrun as [? _].
Qed.

Lemma download_model_traversal_keeps_archive_witness :
  (download_model (archive_env plain_response poisoned_tar)
     "ssd_inception_v2_coco_2017_11_17" false home_world).1
  = inl (Exception "Attempted Path Traversal in Tar File")
  ∧ files (download_model (archive_env plain_response poisoned_tar)
             "ssd_inception_v2_coco_2017_11_17" false home_world).2
    = <[resolve (archive_env plain_response poisoned_tar)
          (model_archive_path (archive_env plain_response poisoned_tar)
             "ssd_inception_v2_coco_2017_11_17")
        := downloaded plain_response false]> (files home_world).
Proof.
  split; [vm_compute; reflexivity|].
  destruct (download_model_traversal_keeps_archive
              (archive_env plain_response poisoned_tar)
              "ssd_inception_v2_coco_2017_11_17" false home_world
              (download_model (archive_env plain_response poisoned_tar)
                 "ssd_inception_v2_coco_2017_11_17" false home_world).2
              plain_response) as (Hfiles & _).
  - vm_compute. reflexivity.
  - vm_compute. reflexivity.
  - exact Hfiles.
Defined.

(** When [download_model] returns, every member of the downloaded archive
    has passed the check and the archive has been removed. *)
Theorem download_model_removes_archive (E : Env) (model_name : string)
    (silent : bool) (w w' : World) (response : Response) :
  network E (get_model_url E model_name) = Some response →
  download_model E model_name silent w = (inr tt, w') →
  files w' !! resolve E (model_archive_path E model_name) = None
  ∧ ∃ tar,
      tar_decode E (downloaded response silent) = Some tar
      ∧ Forall (fun member =>
                  is_within_directory E (get_models_dir_path E)
                    (posixpath.join (get_models_dir_path E) (name member))
                  = true) tar.
Proof.
  intros Hnet Hrun. unfold download_model in Hrun.
  fold (model_archive_path E model_name) in Hrun.
  apply (download_model_until_check E _ _ _ _ response _ _ Hnet) in Hrun
    as [(e & [=] & _)|(tar & w1 & Hfiles & Hdecode & Hrun)].
  apply bind_inv_inr in Hrun as ([] & w2 & Hextract & Hrun).
  apply bind_inv_inr in Hrun as ([] & w3 & Hprint & Hrun).
  apply bind_inv_inr in Hrun as ([] & w4 & Hremove & Hrun).
  apply os_remove_returns in Hremove as ->.
  apply maybe_print_returns in Hrun as (_ & -> & _). cbn [files].
  split; [apply lookup_delete_eq|].
  exists tar. split; [done|].
  destruct (safe_extract_checks E tar (get_models_dir_path E) None false w1)
    as [[_ Hraise]|[Hgood _]]; [|done].
  by rewrite Hraise in Hextract.
Qed.

Lemma download_model_removes_archive_witness :
  (download_model (archive_env plain_response clean_tar)
     "ssd_inception_v2_coco_2017_11_17" true home_world).1 = inr tt
  ∧ files (download_model (archive_env plain_response clean_tar)
             "ssd_inception_v2_coco_2017_11_17" true home_world).2
    !! "/home/user/models/ssd_inception_v2_coco_2017_11_17.tar.gz" = None
  ∧ files (download_model (archive_env plain_response clean_tar)
             "ssd_inception_v2_coco_2017_11_17" true home_world).2
    !! "/home/user/models/saved/model.pb" = Some (data good_member).
Proof.
  split; [vm_compute; reflexivity|].
  split; [|vm_compute; reflexivity].
  destruct (download_model_removes_archive
              (archive_env plain_response clean_tar)
              "ssd_inception_v2_coco_2017_11_17" true home_world
              (download_model (archive_env plain_response clean_tar)
                 "ssd_inception_v2_coco_2017_11_17" true home_world).2
              plain_response) as [Hgone _].
  - vm_compute. reflexivity.
  - vm_compute. reflexivity.
  - exact Hgone.
Defined.
